(** * Portfolio tools: the file queue of PdfMerge.js and JpgToPdf.js

    A shallow embedding of the two React components.  Component state
    (the [useState] cells and the [dragIndexRef] ref) is a record, every
    handler is a function on that record, and the two asynchronous runs
    ([mergePdfs], [convertToPdf]) additionally return the sequence of
    calls they make while running.

    Conventions.
    - A JavaScript array is a [list]; an element that may be [undefined]
      is a [jsval].  Reading a property of [undefined] throws; a function
      that may throw returns [option], with [None] for the exception.
    - Array lengths and indices are [nat]; [MAX_FILES - items.length] can
      be negative and is computed in [Z].
    - [px * 0.75] and [val / 1024] are exact in double precision for the
      integers a browser reports (three quarters and powers of two), so
      they are computed in [Q].
    - The libraries the components call (pdf-lib, jsPDF, the File API, the
      image decoder) are outside the repository: the calls that can fail
      are fields of a class, documents are lists of pages. *)

From Stdlib Require Import Ascii String QArith Qminmax Qround.
From Stdlib.Strings Require Import Byte.
From stdpp Require Import base list strings pretty.

Open Scope nat_scope.

(** ** JavaScript values and array methods *)

Inductive jsval (A : Type) : Type :=
| undefined : jsval A
| object (a : A) : jsval A.
Arguments undefined {A}.
Arguments object {A} a.

Module Js.
Section Array.
Context {A : Type}.

(** [x.prop] for a value [x] that may be [undefined]. *)
Definition prop {B : Type} (get : A -> B) (x : jsval A) : option B :=
  match x with
  | undefined => None
  | object a => Some (get a)
  end.

(** [arr.splice(start, deleteCount, ...ins)] for non-negative integer
    arguments: the removed elements and the array afterwards.  [take]
    and [drop] clamp at the end of the list as splice does. *)
Definition splice (start deleteCount : nat) (ins arr : list A)
  : list A * list A :=
  (take deleteCount (drop start arr),
   take start arr ++ ins ++ drop (start + deleteCount) arr).

(** [arr.slice(0, n)] for a non-negative integer [n]. *)
Definition slice0 (n : nat) (arr : list A) : list A := take n arr.

(** [arr.filter(cb)] where [cb] may throw. *)
Fixpoint filter (cb : A -> option bool) (arr : list A) : option (list A) :=
  match arr with
  | [] => Some []
  | x :: rest =>
      keep ← cb x;
      rest' ← filter cb rest;
      Some (if keep : bool then x :: rest' else rest')
  end.

(** [arr.find(cb)] where [cb] may throw: the outer option is the
    exception, the inner one is the [undefined] of "not found". *)
Fixpoint find (cb : A -> option bool) (arr : list A) : option (option A) :=
  match arr with
  | [] => Some None
  | x :: rest =>
      hit ← cb x;
      if hit : bool then Some (Some x) else find cb rest
  end.

(** [arr.forEach(cb)] where [cb] may throw and otherwise yields a log
    entry. *)
Fixpoint forEach {B : Type} (cb : A -> option B) (arr : list A)
  : option (list B) :=
  match arr with
  | [] => Some []
  | x :: rest =>
      y ← cb x;
      ys ← forEach cb rest;
      Some (y :: ys)
  end.
End Array.

(** [const [moved] = removed]: the first element, [undefined] when the
    array is empty. *)
Definition first {A : Type} (removed : list (jsval A)) : jsval A :=
  match removed with
  | [] => undefined
  | x :: _ => x
  end.

(** [s.toLowerCase()] on the ASCII letters. *)
Definition lower_ascii (c : ascii) : ascii :=
  let n := nat_of_ascii c in
  if (65 <=? n) && (n <=? 90) then ascii_of_nat (n + 32) else c.

Fixpoint toLowerCase (s : string) : string :=
  match s with
  | EmptyString => EmptyString
  | String c rest => String (lower_ascii c) (toLowerCase rest)
  end.

(** [s.endsWith(suffix)]. *)
Definition endsWith (suffix s : string) : bool :=
  (String.length suffix <=? String.length s) &&
  String.eqb
    (substring (String.length s - String.length suffix)
               (String.length suffix) s)
    suffix.

(** [list.includes(x)] on strings. *)
Definition includes (x : string) (l : list string) : bool :=
  existsb (String.eqb x) l.

(** [s.padStart(targetLength, pad)] for a [pad] of one character. *)
Definition padStart (targetLength : nat) (pad : ascii) (s : string) : string :=
  string_of_list_ascii (replicate (targetLength - String.length s) pad) +:+ s.
End Js.

(** ** Files handed over by the browser *)

Module File.
Record t : Type := mk { name : string; type : string; size : N }.
End File.

(** What [downloadName] reads of [new Date()]: the year (of the common
    era), the month counted from 0 and the day of the month. *)
Record Date : Type := { getFullYear : N; getMonth : N; getDate : N }.

(** Reference for statements about the date stamp: a number below 100
    written as its tens digit followed by its units digit. *)
Definition twoDigits (n : N) : string :=
  pretty (n / 10)%N +:+ pretty (n mod 10)%N.

(** The [yyyy], [mm], [dd] pieces both components put into the name of
    the download. *)
Definition dateStamp (d : Date) : string :=
  let yyyy := pretty (getFullYear d) in
  let mm := Js.padStart 2 "0" (pretty (getMonth d + 1)%N) in
  let dd := Js.padStart 2 "0" (pretty (getDate d)) in
  yyyy +:+ mm +:+ dd.

(** ** formatBytes

    The size label of a queued file.  [File.size] is a non-negative
    integer, so the [Number.isFinite] guard of the function never fires
    and the argument is an [N]. *)

Definition units : list string := ["B"; "KB"; "MB"; "GB"].

(** The [while (val >= 1024 && idx < units.length - 1)] loop; [idx] grows
    by one per turn, so [length units - 1] turns of fuel suffice. *)
Fixpoint scale (fuel : nat) (val : Q) (idx : nat) : Q * nat :=
  match fuel with
  | 0 => (val, idx)
  | S fuel' =>
      if Qle_bool 1024 val && (idx <? length units - 1)
      then scale fuel' (val / 1024) (idx + 1)
      else (val, idx)
  end.

(** [val.toFixed(digits)] for [val >= 0] and [digits] 0 or 1: the nearest
    multiple of [10^-digits], the larger one on a tie. *)
Definition toFixed (digits : nat) (val : Q) : string :=
  let n := Z.to_N (Qfloor (val * inject_Z (10 ^ Z.of_nat digits) + (1 # 2))) in
  match digits with
  | 0 => pretty n
  | _ => pretty (n / 10)%N +:+ "." +:+ pretty (n mod 10)%N
  end.

Definition formatBytes (bytes : N) : string :=
  let '(val, idx) := scale (length units - 1) (inject_Z (Z.of_N bytes)) 0 in
  toFixed (if Qle_bool 10 val || (idx =? 0) then 0 else 1) val
    +:+ " " +:+ default "" (units !! idx).

(** ** Strings shown to the user

    [errorMsg] holds either the empty string or what the translation
    resolver returns for a key; the resolver is external, so the message
    is kept as the call that produced it. *)

Module I18n.
Inductive text : Type :=
| empty
| t (key : string) (params : list (string * Z)).
End I18n.

Definition Bytes : Type := list byte.

(** ** The reordering both components perform on drop

    [onDrop] in PdfMerge.js and in JpgToPdf.js pass the same updater to
    [setItems]: copy the array, splice the dragged element out, splice it
    back in at the drop index. *)

Definition reorder {A : Type} (dragIndex dropIndex : nat)
           (prev : list (jsval A)) : list (jsval A) :=
  let next := prev in
  let '(removed, next) := Js.splice dragIndex 1 [] next in
  let moved := Js.first removed in
  let '(_, next) := Js.splice dropIndex 0 [moved] next in
  next.

(** Vocabulary for statements about [reorder]: the array once the element
    at [s] has been spliced out, and what it means for [l'] to be [l]
    with the element at [s] moved to position [t], the elements between
    the two positions shifted by one towards [s]. *)

Definition without {A : Type} (s : nat) (l : list A) : list A :=
  take s l ++ drop (S s) l.

Definition relocated {A : Type} (s t : nat) (l l' : list A) : Prop :=
  length l' = length l /\
  forall i : nat,
    l' !! i =
      if decide (i = t) then l !! s
      else if decide (s <= i < t) then l !! (i + 1)
      else if decide (t < i <= s) then l !! (i - 1)
      else l !! i.

Definition defined {A : Type} (x : jsval A) : Prop := x <> undefined.

(** ** PdfMerge.js *)

Module PdfMerge.

Definition MAX_FILES : Z := 15.

Definition acceptTypes : list string := ["application/pdf"].

(** *** pdf-lib and the File API, as far as the component uses them

    A document is the list of its pages; a copied page is the page. *)

Record PDFDocument (Page : Type) : Type := { getPages : list Page }.
Arguments getPages {Page} _.

(** [arrayBuffer], [load] and [save] are the awaited calls that can
    reject; [None] is the rejection. *)
Class PdfLib : Type := {
  Page : Type;
  arrayBuffer : File.t -> option Bytes;
  load : Bytes -> option (PDFDocument Page);
  save : PDFDocument Page -> option Bytes
}.

Record Blob : Type := { blobParts : list Bytes; blobType : string }.

Inductive ObjectUrl : Type := createObjectURL (blob : Blob).

Module Item.
Record t : Type := mk { id : string; file : File.t; sizeLabel : string }.
End Item.

Record Progress : Type := { current : nat; total : nat }.

Record State : Type := {
  items : list (jsval Item.t);
  isMerging : bool;
  mergedPdfUrl : option ObjectUrl;
  errorMsg : I18n.text;
  progress : Progress;
  dragIndexRef : option nat
}.

(** What a run does that can be seen while it runs. *)
Inductive Event : Type :=
| ArrayBuffer (f : File.t)
| SetProgress (p : Progress).

Section Component.
Context {Lib : PdfLib}.

Definition create : PDFDocument Page := {| getPages := [] |}.

Definition getPageIndices (doc : PDFDocument Page) : list nat :=
  seq 0 (length (getPages doc)).

(** [outPdf.copyPages(srcPdf, indices)]: a copy of the page at each
    index, in the order of [indices]; an index past the end throws. *)
Definition copyPages (srcPdf : PDFDocument Page) (indices : list nat)
  : option (list Page) :=
  mapM (fun i => getPages srcPdf !! i) indices.

Definition addPage (outPdf : PDFDocument Page) (p : Page)
  : PDFDocument Page :=
  {| getPages := getPages outPdf ++ [p] |}.

(** *** State setters *)

Definition setItems (f : list (jsval Item.t) -> list (jsval Item.t))
           (st : State) : State :=
  {| items := f (items st); isMerging := isMerging st;
     mergedPdfUrl := mergedPdfUrl st; errorMsg := errorMsg st;
     progress := progress st; dragIndexRef := dragIndexRef st |}.

Definition setIsMerging (b : bool) (st : State) : State :=
  {| items := items st; isMerging := b;
     mergedPdfUrl := mergedPdfUrl st; errorMsg := errorMsg st;
     progress := progress st; dragIndexRef := dragIndexRef st |}.

Definition setMergedPdfUrl (u : option ObjectUrl) (st : State) : State :=
  {| items := items st; isMerging := isMerging st;
     mergedPdfUrl := u; errorMsg := errorMsg st;
     progress := progress st; dragIndexRef := dragIndexRef st |}.

Definition setErrorMsg (m : I18n.text) (st : State) : State :=
  {| items := items st; isMerging := isMerging st;
     mergedPdfUrl := mergedPdfUrl st; errorMsg := m;
     progress := progress st; dragIndexRef := dragIndexRef st |}.

Definition setProgress (p : Progress) (st : State) : State :=
  {| items := items st; isMerging := isMerging st;
     mergedPdfUrl := mergedPdfUrl st; errorMsg := errorMsg st;
     progress := p; dragIndexRef := dragIndexRef st |}.

Definition setDragIndexRef (d : option nat) (st : State) : State :=
  {| items := items st; isMerging := isMerging st;
     mergedPdfUrl := mergedPdfUrl st; errorMsg := errorMsg st;
     progress := progress st; dragIndexRef := d |}.

(** The state after [useState([])], [useState(false)], ... *)
Definition mount : State :=
  {| items := []; isMerging := false; mergedPdfUrl := None;
     errorMsg := I18n.empty; progress := {| current := 0; total := 0 |};
     dragIndexRef := None |}.

(** *** addFiles *)

Definition isValid (f : File.t) : bool :=
  Js.includes (File.type f) acceptTypes
  || Js.endsWith ".pdf" (Js.toLowerCase (File.name f)).

(** [token k] is what [crypto.randomUUID?.() || Date.now()] yields for
    the [k]-th admitted file of the call. *)
Definition newItem (token : nat -> string) (k : nat) (file : File.t)
  : Item.t :=
  {| Item.id := token k +:+ "-" +:+ File.name file;
     Item.file := file;
     Item.sizeLabel := formatBytes (File.size file) |}.

Definition addFiles (token : nat -> string) (fileList : list File.t)
           (st : State) : State :=
  let st := setErrorMsg I18n.empty st in
  let st := setMergedPdfUrl None st in
  let incoming := fileList in
  if length incoming =? 0 then st else
  let valid := List.filter isValid incoming in
  let st :=
    if negb (length valid =? length incoming)
    then setErrorMsg (I18n.t "PdfMerge.invalidFileType" []) st
    else st in
  let availableSlots := (MAX_FILES - Z.of_nat (length (items st)))%Z in
  if (availableSlots <=? 0)%Z
  then setErrorMsg (I18n.t "PdfMerge.maxFilesReached" [("max", MAX_FILES)]) st
  else
  let toAdd := Js.slice0 (Z.to_nat availableSlots) valid in
  let st :=
    if (Z.of_nat (length valid) >? availableSlots)%Z
    then setErrorMsg (I18n.t "PdfMerge.someFilesIgnored" [("max", MAX_FILES)]) st
    else st in
  let newItems := imap (newItem token) toAdd in
  setItems (fun prev => prev ++ map object newItems) st.

(** *** removeItem, clearAll *)

Definition removeItem (id : string) (st : State) : option State :=
  let st := setMergedPdfUrl None st in
  next ← Js.filter
           (fun x => xid ← Js.prop Item.id x; Some (negb (String.eqb xid id)))
           (items st);
  Some (setItems (fun _ => next) st).

Definition clearAll (st : State) : State :=
  let st := setMergedPdfUrl None st in
  let st := setErrorMsg I18n.empty st in
  setItems (fun _ => []) st.

(** *** Drag and drop ordering *)

Definition onDragStart (index : nat) (st : State) : State :=
  setDragIndexRef (Some index) st.

Definition onDrop (dropIndex : nat) (st : State) : State :=
  let dragIndex := dragIndexRef st in
  let st := setDragIndexRef None st in
  match dragIndex with
  | None => st
  | Some dragIndex =>
      if dragIndex =? dropIndex then st else
      let st := setMergedPdfUrl None st in
      setItems (reorder dragIndex dropIndex) st
  end.

(** *** mergePdfs *)

(** The body of one turn of the [for] loop up to, not including, the
    progress update: the new [outPdf], or [None] when something threw. *)
Definition mergeItem (it : jsval Item.t) (outPdf : PDFDocument Page)
  : option (PDFDocument Page) :=
  f ← Js.prop Item.file it;
  bytes ← arrayBuffer f;
  srcPdf ← load bytes;
  let pageIndices := getPageIndices srcPdf in
  copiedPages ← copyPages srcPdf pageIndices;
  Some (foldl addPage outPdf copiedPages).

(** The [arrayBuffer()] call of a turn, which happens unless
    [items[i].file] already threw. *)
Definition reads (it : jsval Item.t) : list Event :=
  match it with
  | undefined => []
  | object a => [ArrayBuffer (Item.file a)]
  end.

(** [for (let i = ...; i < items.length; i++)] from index [i] on, with
    [rest] the elements of [items] from [i]: the events in the order
    they happen and [outPdf] after the loop, [None] when a turn threw. *)
Fixpoint mergeLoop (len i : nat) (rest : list (jsval Item.t))
         (outPdf : PDFDocument Page)
  : list Event * option (PDFDocument Page) :=
  match rest with
  | [] => ([], Some outPdf)
  | it :: rest' =>
      match mergeItem it outPdf with
      | None => (reads it, None)
      | Some outPdf' =>
          let p := {| current := i + 1; total := len |} in
          let '(evs, r) := mergeLoop len (i + 1) rest' outPdf' in
          (reads it ++ SetProgress p :: evs, r)
      end
  end.

(** The effect of an event on the component state. *)
Definition observe (st : State) (e : Event) : State :=
  match e with
  | ArrayBuffer _ => st
  | SetProgress p => setProgress p st
  end.

Definition mergePdfs (st : State) : list Event * State :=
  let st := setErrorMsg I18n.empty st in
  let st := setMergedPdfUrl None st in
  if length (items st) <? 2
  then ([], setErrorMsg (I18n.t "PdfMerge.needAtLeastTwo" []) st)
  else
  let st := setIsMerging true st in
  let p0 := {| current := 0; total := length (items st) |} in
  let st := setProgress p0 st in
  let '(evs, outPdf) :=
    mergeLoop (length (items st)) 0 (items st) create in
  let st := foldl observe st evs in
  let url :=
    outPdf ← outPdf;
    mergedBytes ← save outPdf;
    let blob := {| blobParts := [mergedBytes];
                   blobType := "application/pdf" |} in
    Some (createObjectURL blob) in
  let st :=
    match url with
    | Some url => setMergedPdfUrl (Some url) st
    | None => setErrorMsg (I18n.t "PdfMerge.mergeFailed" []) st
    end in
  (SetProgress p0 :: evs, setIsMerging false st).

(** *** The handlers that call [setItems] *)

Inductive Mutation : Type :=
| AddFiles (token : nat -> string) (fileList : list File.t)
| RemoveItem (id : string)
| ClearAll
| Drop (dropIndex : nat).

Definition mutate (m : Mutation) (st : State) : option State :=
  match m with
  | AddFiles token fileList => Some (addFiles token fileList st)
  | RemoveItem id => removeItem id st
  | ClearAll => Some (clearAll st)
  | Drop dropIndex => Some (onDrop dropIndex st)
  end.

(** *** What the rendered controls depend on *)

Definition downloadName (d : Date) : string :=
  "merged-" +:+ dateStamp d +:+ ".pdf".

(** [disabled] of the merge button, of "clear all" and of an item's
    remove button; whether the download link is switched off. *)
Definition mergeDisabled (st : State) : bool :=
  (length (items st) <? 2) || isMerging st.

Definition clearAllDisabled (st : State) : bool :=
  (length (items st) =? 0) || isMerging st.

Definition removeDisabled (st : State) : bool := isMerging st.

Definition downloadDisabled (st : State) : bool :=
  match mergedPdfUrl st with
  | Some _ => false
  | None => true
  end.

(** *** The item list in the returned JSX

    [items.map((it, idx) => ...)]: for each entry the row reads [it.id]
    (the key), [it.file.name] and [it.sizeLabel]; reading a property of
    [undefined] throws, which ends the render. *)

Record Row : Type := {
  rowKey : string;
  rowPill : nat;
  rowName : string;
  rowSize : string
}.

Definition renderItem (idx : nat) (it : jsval Item.t) : option Row :=
  key ← Js.prop Item.id it;
  f ← Js.prop Item.file it;
  label ← Js.prop Item.sizeLabel it;
  Some {| rowKey := key; rowPill := idx + 1; rowName := File.name f;
          rowSize := label |}.

Fixpoint renderFrom (idx : nat) (rest : list (jsval Item.t))
  : option (list Row) :=
  match rest with
  | [] => Some []
  | it :: rest' =>
      row ← renderItem idx it;
      rows ← renderFrom (idx + 1) rest';
      Some (row :: rows)
  end.

Definition renderItems (st : State) : option (list Row) :=
  renderFrom 0 (items st).

(** *** Vocabulary for statements about a run *)

(** What the awaited calls of one turn deliver for an item: the parsed
    source document, or [None] when reading or parsing fails. *)
Definition decode (it : jsval Item.t) : option (PDFDocument Page) :=
  f ← Js.prop Item.file it;
  bytes ← arrayBuffer f;
  load bytes.

(** The events of the turn with index [k] when it completes. *)
Definition turn (len k : nat) (it : jsval Item.t) : list Event :=
  reads it ++ [SetProgress {| current := k + 1; total := len |}].

(** The progress updates among the events, in order. *)
Definition progressOf (evs : list Event) : list Progress :=
  omap (fun e => match e with SetProgress p => Some p | _ => None end) evs.

(** The files read among the events, in order. *)
Definition filesRead (evs : list Event) : list File.t :=
  omap (fun e => match e with ArrayBuffer f => Some f | _ => None end) evs.

Definition pageCount (doc : PDFDocument Page) : nat :=
  length (getPages doc).

End Component.
End PdfMerge.

(** ** JpgToPdf.js *)

Module JpgToPdf.

Definition acceptTypes : list string :=
  ["image/jpeg"; "image/jpg"; "image/png"].

(** *** The browser's readers and jsPDF, as far as the component uses
    them

    A jsPDF document is the list of its pages, each page with the format
    and orientation it was created with and the images placed on it; the
    three jsPDF calls of the component are taken to return normally. *)

Definition DataUrl : Type := string.

Record Image : Type := { naturalWidth : N; naturalHeight : N }.

(** The two promises of the component's helpers; [None] is [reject]
    ([reader.onerror], [img.onerror]). *)
Class Browser : Type := {
  readFileAsDataUrl : File.t -> option DataUrl;
  loadImage : DataUrl -> option Image
}.

(** One [addImage] call. *)
Record Placement : Type := {
  imageData : DataUrl;
  imageFormat : string;
  imageX : Q;
  imageY : Q;
  imageWidth : Q;
  imageHeight : Q
}.

(** A page as it was asked for: [pageFormat] is the [[width, height]]
    passed to jsPDF and [pageOrientation] the orientation passed with it;
    [pageSize] below is the size of the page jsPDF produces for it. *)
Record PdfPage : Type := {
  pageFormat : Q * Q;
  pageOrientation : string;
  pageImages : list Placement
}.

(** jsPDF produces no page side longer than 14400 user units (points
    here): a longer side of the format passed is cut to that length.  The
    component passes "l" only with a width that is at least the height
    and "p" only with a smaller width, so jsPDF does not swap the sides. *)
Definition maxPageSide : Q := 14400.

Definition pageSize (pg : PdfPage) : Q * Q :=
  (Qmin maxPageSide (pageFormat pg).1, Qmin maxPageSide (pageFormat pg).2).

Record jsPDF : Type := { pdfUnit : string; pdfPages : list PdfPage }.

Definition blankPage (format : Q * Q) (orientation : string) : PdfPage :=
  {| pageFormat := format; pageOrientation := orientation;
     pageImages := [] |}.

(** [new jsPDF({ unit, format, orientation })]: a document with its
    first page, recorded with the format and orientation passed. *)
Definition new_jsPDF (unit : string) (format : Q * Q)
           (orientation : string) : jsPDF :=
  {| pdfUnit := unit; pdfPages := [blankPage format orientation] |}.

(** [pdf.addPage(format, orientation)]: the new page, recorded with the
    format and orientation passed, is the last one and becomes the
    current one. *)
Definition addPage (format : Q * Q) (orientation : string) (pdf : jsPDF)
  : jsPDF :=
  {| pdfUnit := pdfUnit pdf;
     pdfPages := pdfPages pdf ++ [blankPage format orientation] |}.

Fixpoint onCurrent (f : PdfPage -> PdfPage) (pages : list PdfPage)
  : list PdfPage :=
  match pages with
  | [] => []
  | [pg] => [f pg]
  | pg :: rest => pg :: onCurrent f rest
  end.

(** [pdf.addImage(data, format, x, y, w, h)]: onto the current page. *)
Definition addImage (data : DataUrl) (format : string) (x y w h : Q)
           (pdf : jsPDF) : jsPDF :=
  let pl := {| imageData := data; imageFormat := format; imageX := x;
               imageY := y; imageWidth := w; imageHeight := h |} in
  {| pdfUnit := pdfUnit pdf;
     pdfPages :=
       onCurrent
         (fun pg => {| pageFormat := pageFormat pg;
                       pageOrientation := pageOrientation pg;
                       pageImages := pageImages pg ++ [pl] |})
         (pdfPages pdf) |}.

(** [pdf.output("blob")]. *)
Inductive Blob : Type := output (pdf : jsPDF).

(** [URL.createObjectURL] of a queued file or of the finished blob. *)
Inductive ObjectUrl : Type := createObjectURL (src : File.t + Blob).

Module Item.
Record t : Type :=
  mk { id : string; file : File.t; previewUrl : ObjectUrl }.
End Item.

(** [revoked] lists the [URL.revokeObjectURL] calls of the handlers. *)
Record State : Type := {
  items : list (jsval Item.t);
  isConverting : bool;
  pdfUrl : option ObjectUrl;
  errorMsg : I18n.text;
  dragIndexRef : option nat;
  revoked : list ObjectUrl
}.

Inductive Event : Type :=
| ReadFile (f : File.t)
| LoadImage (dataUrl : DataUrl).

Section Component.
Context {B : Browser}.

(** *** State setters *)

Definition setItems (f : list (jsval Item.t) -> list (jsval Item.t))
           (st : State) : State :=
  {| items := f (items st); isConverting := isConverting st;
     pdfUrl := pdfUrl st; errorMsg := errorMsg st;
     dragIndexRef := dragIndexRef st; revoked := revoked st |}.

Definition setIsConverting (b : bool) (st : State) : State :=
  {| items := items st; isConverting := b;
     pdfUrl := pdfUrl st; errorMsg := errorMsg st;
     dragIndexRef := dragIndexRef st; revoked := revoked st |}.

Definition setPdfUrl (u : option ObjectUrl) (st : State) : State :=
  {| items := items st; isConverting := isConverting st;
     pdfUrl := u; errorMsg := errorMsg st;
     dragIndexRef := dragIndexRef st; revoked := revoked st |}.

Definition setErrorMsg (m : I18n.text) (st : State) : State :=
  {| items := items st; isConverting := isConverting st;
     pdfUrl := pdfUrl st; errorMsg := m;
     dragIndexRef := dragIndexRef st; revoked := revoked st |}.

Definition setDragIndexRef (d : option nat) (st : State) : State :=
  {| items := items st; isConverting := isConverting st;
     pdfUrl := pdfUrl st; errorMsg := errorMsg st;
     dragIndexRef := d; revoked := revoked st |}.

Definition revokeObjectURL (us : list ObjectUrl) (st : State) : State :=
  {| items := items st; isConverting := isConverting st;
     pdfUrl := pdfUrl st; errorMsg := errorMsg st;
     dragIndexRef := dragIndexRef st; revoked := revoked st ++ us |}.

Definition mount : State :=
  {| items := []; isConverting := false; pdfUrl := None;
     errorMsg := I18n.empty; dragIndexRef := None; revoked := [] |}.

(** *** addFiles *)

Definition isValid (f : File.t) : bool :=
  Js.includes (File.type f) acceptTypes.

Definition newItem (token : nat -> string) (k : nat) (file : File.t)
  : Item.t :=
  {| Item.id := token k +:+ "-" +:+ File.name file;
     Item.file := file;
     Item.previewUrl := createObjectURL (inl file) |}.

Definition addFiles (token : nat -> string) (fileList : list File.t)
           (st : State) : State :=
  let st := setErrorMsg I18n.empty st in
  let st := setPdfUrl None st in
  let incoming := fileList in
  let valid := List.filter isValid incoming in
  if (0 <? length incoming) && (length valid =? 0)
  then setErrorMsg (I18n.t "JpgToPdf.invalidFileType" []) st
  else
  let newItems := imap (newItem token) valid in
  setItems (fun prev => prev ++ map object newItems) st.

(** *** removeItem, clearAll *)

Definition removeItem (id : string) (st : State) : option State :=
  let st := setPdfUrl None st in
  target ← Js.find
             (fun x => xid ← Js.prop Item.id x; Some (String.eqb xid id))
             (items st);
  let st :=
    match target with
    | Some (object a) => revokeObjectURL [Item.previewUrl a] st
    | _ => st
    end in
  next ← Js.filter
           (fun x => xid ← Js.prop Item.id x; Some (negb (String.eqb xid id)))
           (items st);
  Some (setItems (fun _ => next) st).

Definition clearAll (st : State) : option State :=
  let st := setPdfUrl None st in
  let st := setErrorMsg I18n.empty st in
  urls ← Js.forEach (Js.prop Item.previewUrl) (items st);
  Some (setItems (fun _ => []) (revokeObjectURL urls st)).

(** *** Drag and drop ordering *)

Definition onDragStart (index : nat) (st : State) : State :=
  setDragIndexRef (Some index) st.

Definition onDrop (dropIndex : nat) (st : State) : State :=
  let dragIndex := dragIndexRef st in
  let st := setDragIndexRef None st in
  match dragIndex with
  | None => st
  | Some dragIndex =>
      if dragIndex =? dropIndex then st else
      let st := setPdfUrl None st in
      setItems (reorder dragIndex dropIndex) st
  end.

(** *** convertToPdf *)

Definition pxToPt (px : N) : Q := inject_Z (Z.of_N px) * 0.75.

Definition pagePt (px : N) : Q := Qmax 1 (pxToPt px).

Definition orientationOf (wPt hPt : Q) : string :=
  if Qle_bool hPt wPt then "l" else "p".

(** From the decoded image to the end of one turn of the loop. *)
Definition placeImage (file : File.t) (dataUrl : DataUrl) (img : Image)
           (pdf : option jsPDF) : jsPDF :=
  let wPt := pagePt (naturalWidth img) in
  let hPt := pagePt (naturalHeight img) in
  let orientation := orientationOf wPt hPt in
  let pdf :=
    match pdf with
    | None => new_jsPDF "pt" (wPt, hPt) orientation
    | Some pdf => addPage (wPt, hPt) orientation pdf
    end in
  let isJpeg := String.eqb (File.type file) "image/jpeg"
                || String.eqb (File.type file) "image/jpg" in
  addImage dataUrl (if isJpeg then "JPEG" else "PNG") 0 0 wPt hPt pdf.

(** One turn of the [for] loop: the events it causes and the document
    afterwards, [None] when something threw. *)
Definition convertItem (it : jsval Item.t) (pdf : option jsPDF)
  : list Event * option jsPDF :=
  match Js.prop Item.file it with
  | None => ([], None)
  | Some f =>
      match readFileAsDataUrl f with
      | None => ([ReadFile f], None)
      | Some dataUrl =>
          match loadImage dataUrl with
          | None => ([ReadFile f; LoadImage dataUrl], None)
          | Some img =>
              ([ReadFile f; LoadImage dataUrl],
               Some (placeImage f dataUrl img pdf))
          end
      end
  end.

(** The loop over [rest]; the result is [pdf] after the loop ([None]
    inside is the initial [null]), or [None] when a turn threw. *)
Fixpoint convertLoop (rest : list (jsval Item.t)) (pdf : option jsPDF)
  : list Event * option (option jsPDF) :=
  match rest with
  | [] => ([], Some pdf)
  | it :: rest' =>
      match convertItem it pdf with
      | (evs, None) => (evs, None)
      | (evs, Some pdf') =>
          let '(evs', r) := convertLoop rest' (Some pdf') in
          (evs ++ evs', r)
      end
  end.

Definition convertToPdf (st : State) : list Event * State :=
  let st := setErrorMsg I18n.empty st in
  let st := setPdfUrl None st in
  if length (items st) =? 0
  then ([], setErrorMsg (I18n.t "JpgToPdf.noImagesError" []) st)
  else
  let st := setIsConverting true st in
  let '(evs, r) := convertLoop (items st) None in
  let url :=
    pdf ← r;
    pdf ← pdf;
    let blob := output pdf in
    Some (createObjectURL (inr blob)) in
  let st :=
    match url with
    | Some url => setPdfUrl (Some url) st
    | None => setErrorMsg (I18n.t "JpgToPdf.convertFailed" []) st
    end in
  (evs, setIsConverting false st).

(** *** The handlers that call [setItems] *)

Inductive Mutation : Type :=
| AddFiles (token : nat -> string) (fileList : list File.t)
| RemoveItem (id : string)
| ClearAll
| Drop (dropIndex : nat).

Definition mutate (m : Mutation) (st : State) : option State :=
  match m with
  | AddFiles token fileList => Some (addFiles token fileList st)
  | RemoveItem id => removeItem id st
  | ClearAll => clearAll st
  | Drop dropIndex => Some (onDrop dropIndex st)
  end.

(** *** What the rendered controls depend on *)

Definition downloadName (d : Date) : string :=
  "images-to-pdf-" +:+ dateStamp d +:+ ".pdf".

Definition convertDisabled (st : State) : bool :=
  (length (items st) =? 0) || isConverting st.

Definition clearAllDisabled (st : State) : bool :=
  (length (items st) =? 0) || isConverting st.

Definition removeDisabled (st : State) : bool := isConverting st.

Definition downloadDisabled (st : State) : bool :=
  match pdfUrl st with
  | Some _ => false
  | None => true
  end.

(** *** The item list in the returned JSX

    [items.map((it, idx) => ...)]: for each entry the row reads [it.id]
    (the key), [it.previewUrl] and [it.file.name]; reading a property of
    [undefined] throws, which ends the render. *)

Record Row : Type := {
  rowKey : string;
  rowThumb : ObjectUrl;
  rowPill : nat;
  rowName : string
}.

Definition renderItem (idx : nat) (it : jsval Item.t) : option Row :=
  key ← Js.prop Item.id it;
  thumb ← Js.prop Item.previewUrl it;
  f ← Js.prop Item.file it;
  Some {| rowKey := key; rowThumb := thumb; rowPill := idx + 1;
          rowName := File.name f |}.

Fixpoint renderFrom (idx : nat) (rest : list (jsval Item.t))
  : option (list Row) :=
  match rest with
  | [] => Some []
  | it :: rest' =>
      row ← renderItem idx it;
      rows ← renderFrom (idx + 1) rest';
      Some (row :: rows)
  end.

Definition renderItems (st : State) : option (list Row) :=
  renderFrom 0 (items st).

(** *** Vocabulary for statements about a run *)

(** What the awaited calls of one turn deliver for an item: the file,
    its data URL and the decoded image, or [None] when reading or
    decoding fails. *)
Definition decode (it : jsval Item.t) : option (File.t * DataUrl * Image) :=
  f ← Js.prop Item.file it;
  dataUrl ← readFileAsDataUrl f;
  img ← loadImage dataUrl;
  Some (f, dataUrl, img).

(** The calls a turn makes on an item. *)
Definition attempts (it : jsval Item.t) : list Event :=
  (convertItem it None).1.

(** The pages of [pdf], none while it is still [null]. *)
Definition pagesOf (pdf : option jsPDF) : list PdfPage :=
  match pdf with
  | None => []
  | Some pdf => pdfPages pdf
  end.

End Component.
End JpgToPdf.

(** ** Sample data

    A small concrete environment on which the statements below are
    instantiated: three well-formed documents, a file that cannot be
    parsed and one that is no PDF; three images and one that does not
    decode. *)

Module Sample.

Definition token (k : nat) : string := "uuid" +:+ pretty k.

Definition fileA : File.t := File.mk "A.pdf" "application/pdf" 3072.
Definition fileB : File.t := File.mk "B.pdf" "application/pdf" 1024.
Definition fileC : File.t := File.mk "C.PDF" "" 2048.
Definition broken : File.t := File.mk "broken.pdf" "application/pdf" 7.
Definition notes : File.t := File.mk "notes.txt" "text/plain" 12.

Definition docA : PdfMerge.PDFDocument string :=
  {| PdfMerge.getPages := ["A1"; "A2"; "A3"] |}.
Definition docB : PdfMerge.PDFDocument string :=
  {| PdfMerge.getPages := ["B1"] |}.
Definition docC : PdfMerge.PDFDocument string :=
  {| PdfMerge.getPages := ["C1"; "C2"] |}.

(** A file's bytes are its name; parsing recognises the three
    documents; saving writes the page labels one after the other. *)
Definition lib : PdfMerge.PdfLib :=
  {| PdfMerge.Page := string;
     PdfMerge.arrayBuffer f := Some (list_byte_of_string (File.name f));
     PdfMerge.load bytes :=
       let content := string_of_list_byte bytes in
       if String.eqb content "A.pdf" then Some docA
       else if String.eqb content "B.pdf" then Some docB
       else if String.eqb content "C.PDF" then Some docC
       else None;
     PdfMerge.save doc :=
       Some (list_byte_of_string
               (String.concat "," (PdfMerge.getPages doc))) |}.

Definition itemOf (k : nat) (f : File.t) : jsval PdfMerge.Item.t :=
  object (PdfMerge.newItem token k f).

Definition withItems (l : list (jsval PdfMerge.Item.t)) : PdfMerge.State :=
  PdfMerge.setItems (fun _ => l) PdfMerge.mount.

(** A queue of two, one of three with an unparsable second item, and a
    full queue, each with an output handle from an earlier run. *)
Definition oldUrl : PdfMerge.ObjectUrl :=
  PdfMerge.createObjectURL
    {| PdfMerge.blobParts := [[]]; PdfMerge.blobType := "application/pdf" |}.

Definition queueAB : PdfMerge.State :=
  PdfMerge.setMergedPdfUrl (Some oldUrl)
    (withItems [itemOf 0 fileA; itemOf 1 fileB]).

Definition queueAxB : PdfMerge.State :=
  PdfMerge.setMergedPdfUrl (Some oldUrl)
    (withItems [itemOf 0 fileA; itemOf 1 broken; itemOf 2 fileB]).

Definition queueABC : PdfMerge.State :=
  PdfMerge.setMergedPdfUrl (Some oldUrl)
    (withItems [itemOf 0 fileA; itemOf 1 fileB; itemOf 2 fileC]).

(** [queueABC] after the third card was picked up and its item removed:
    two items, and the drag index 2 still recorded. *)
Definition afterRemoval : PdfMerge.State :=
  default queueAB
    (PdfMerge.removeItem "uuid2-C.PDF" (PdfMerge.onDragStart 2 queueABC)).

Definition fullQueue : PdfMerge.State :=
  PdfMerge.setMergedPdfUrl (Some oldUrl)
    (PdfMerge.addFiles token (replicate 15 fileA) PdfMerge.mount).

Definition photo : File.t := File.mk "photo.jpg" "image/jpeg" 40000.
Definition icon : File.t := File.mk "icon.png" "image/png" 90.
Definition dot : File.t := File.mk "dot.png" "image/png" 68.
Definition torn : File.t := File.mk "torn.png" "image/png" 5.

(** The data URL of a file is its name; the decoder knows the size of
    three pictures. *)
Definition browser : JpgToPdf.Browser :=
  {| JpgToPdf.readFileAsDataUrl f := Some (File.name f);
     JpgToPdf.loadImage dataUrl :=
       if String.eqb dataUrl "photo.jpg"
       then Some {| JpgToPdf.naturalWidth := 800;
                    JpgToPdf.naturalHeight := 600 |}
       else if String.eqb dataUrl "icon.png"
       then Some {| JpgToPdf.naturalWidth := 16;
                    JpgToPdf.naturalHeight := 32 |}
       else if String.eqb dataUrl "dot.png"
       then Some {| JpgToPdf.naturalWidth := 1;
                    JpgToPdf.naturalHeight := 1 |}
       else None |}.

Definition imageOf (k : nat) (f : File.t) : jsval JpgToPdf.Item.t :=
  object (JpgToPdf.newItem token k f).

Definition withImages (l : list (jsval JpgToPdf.Item.t)) : JpgToPdf.State :=
  JpgToPdf.setItems (fun _ => l) JpgToPdf.mount.

Definition oldPdfUrl : JpgToPdf.ObjectUrl :=
  JpgToPdf.createObjectURL
    (inr (JpgToPdf.output
            (JpgToPdf.new_jsPDF "pt" (1, 1)%Q "l"))).

Definition gallery : JpgToPdf.State :=
  JpgToPdf.setPdfUrl (Some oldPdfUrl)
    (withImages [imageOf 0 photo; imageOf 1 icon; imageOf 2 dot]).

Definition galleryTorn : JpgToPdf.State :=
  JpgToPdf.setPdfUrl (Some oldPdfUrl)
    (withImages [imageOf 0 photo; imageOf 1 torn; imageOf 2 icon]).

End Sample.

(** * Properties *)

(** ** formatBytes on sample sizes *)

Example formatBytes_small : formatBytes 512 = "512 B".
Proof. vm_compute. reflexivity. Qed.

Example formatBytes_kb : formatBytes 1536 = "1.5 KB".
Proof. vm_compute. reflexivity. Qed.

Example formatBytes_mb : formatBytes 52428800 = "50 MB".
Proof. vm_compute. reflexivity. Qed.

(** ** The reordering updater *)

Section Reorder.
Context {A : Type}.
Implicit Types (l : list (jsval A)) (x : jsval A) (s t i : nat).


Lemma reorder_unfold s t l :
  reorder s t l =
  take t (without s l)
    ++ Js.first (take 1 (drop s l)) :: drop t (without s l).
Proof.
  unfold reorder, Js.splice, without. cbn [app].
  by rewrite Nat.add_0_r, Nat.add_1_r.
Qed.

Lemma first_in_range s l x :
  l !! s = Some x -> Js.first (take 1 (drop s l)) = x.
Proof. intros Hs. by rewrite (drop_S _ _ _ Hs). Qed.

Lemma first_out_of_range s l :
  length l <= s -> Js.first (take 1 (drop s l)) = undefined.
Proof. intros Hs. by rewrite drop_ge. Qed.

Lemma without_out_of_range s l : length l <= s -> without s l = l.
Proof.
  intros Hs. unfold without.
  rewrite take_ge, drop_ge by lia. apply app_nil_r.
Qed.

Lemma length_without s l :
  s < length l -> length (without s l) = length l - 1.
Proof.
  intros Hs. unfold without.
  rewrite length_app, length_take, length_drop. lia.
Qed.

Lemma lookup_without s l i :
  s < length l ->
  without s l !! i = if decide (i < s) then l !! i else l !! (S i).
Proof.
  intros Hs. unfold without. case_decide as Hi.
  - rewrite lookup_app_l by (rewrite length_take; lia).
    rewrite lookup_take. by rewrite decide_True.
  - rewrite lookup_app_r by (rewrite length_take; lia).
    rewrite lookup_drop, length_take. f_equal. lia.
Qed.

(** A drag from an index inside the array. *)
Lemma reorder_in_range s t l x :
  l !! s = Some x ->
  reorder s t l = take t (without s l) ++ x :: drop t (without s l).
Proof.
  intros Hs. by rewrite reorder_unfold, (first_in_range _ _ _ Hs).
Qed.

Lemma length_reorder_in_range s t l :
  s < length l -> length (reorder s t l) = length l.
Proof.
  intros Hs. destruct (lookup_lt_is_Some_2 l s Hs) as [x Hx].
  rewrite (reorder_in_range _ _ _ _ Hx).
  rewrite length_app. cbn [length].
  rewrite length_take, length_drop, length_without by done. lia.
Qed.

(** Where every element of the result comes from. *)
Lemma lookup_reorder s t l i :
  s < length l -> t < length l ->
  reorder s t l !! i =
    if decide (i = t) then l !! s
    else if decide (s <= i < t) then l !! (i + 1)
    else if decide (t < i <= s) then l !! (i - 1)
    else l !! i.
Proof.
  intros Hs Ht. destruct (lookup_lt_is_Some_2 l s Hs) as [x Hx].
  rewrite (reorder_in_range _ _ _ _ Hx).
  assert (Hlen : length (take t (without s l)) = t).
  { rewrite length_take, length_without by done. lia. }
  destruct (decide (i < t)) as [Hlt|Hge].
  - rewrite lookup_app_l by lia.
    rewrite lookup_take, decide_True by done.
    rewrite lookup_without by done.
    repeat case_decide; try lia; try done.
    by rewrite Nat.add_1_r.
  - rewrite lookup_app_r by lia. rewrite Hlen.
    destruct (decide (i = t)) as [->|Hne].
    + by rewrite Nat.sub_diag.
    + rewrite lookup_cons_ne_0 by lia.
      rewrite lookup_drop, lookup_without by done.
      replace (t + pred (i - t)) with (i - 1) by lia.
      repeat case_decide; try lia; try done.
      f_equal. lia.
Qed.

(** A drag from an index past the end: nothing is removed, and
    [undefined] is spliced in at the drop index. *)
Lemma reorder_out_of_range s t l :
  length l <= s ->
  reorder s t l = take t l ++ undefined :: drop t l.
Proof.
  intros Hs.
  by rewrite reorder_unfold, first_out_of_range, without_out_of_range.
Qed.

Lemma length_reorder_out_of_range s t l :
  length l <= s -> length (reorder s t l) = S (length l).
Proof.
  intros Hs. rewrite reorder_out_of_range by done.
  rewrite length_app. cbn [length].
  rewrite length_take, length_drop. lia.
Qed.
End Reorder.

(** ** PdfMerge: the merge run *)

Section MergeRun.
Context {Lib : PdfMerge.PdfLib}.
Import PdfMerge.
Implicit Types (st : State) (it : jsval Item.t) (out : PDFDocument Page).

Lemma copyPages_all (d : PDFDocument Page) :
  copyPages d (getPageIndices d) = Some (getPages d).
Proof.
  unfold copyPages, getPageIndices. apply mapM_Some.
  apply Forall2_same_length_lookup_2.
  - by rewrite length_seq.
  - intros i j p Hj Hp. apply lookup_seq in Hj as [-> _]. done.
Qed.

Lemma foldl_addPage (ps : list Page) out :
  foldl addPage out ps = {| getPages := getPages out ++ ps |}.
Proof.
  revert out. induction ps as [|p ps IH]; intros out; cbn [foldl].
  - rewrite app_nil_r. by destruct out.
  - rewrite IH. unfold addPage. cbn [getPages]. by rewrite <- app_assoc.
Qed.

(** A turn appends the pages of the parsed source, in their order. *)
Lemma mergeItem_decode it out :
  mergeItem it out =
  d ← decode it; Some {| getPages := getPages out ++ getPages d |}.
Proof.
  unfold mergeItem, decode.
  destruct (Js.prop Item.file it) as [f|]; [|done]. cbn [mbind option_bind].
  destruct (arrayBuffer f) as [b|]; [|done]. cbn [mbind option_bind].
  destruct (load b) as [d|]; [|done]. cbn [mbind option_bind].
  rewrite copyPages_all. cbn [mbind option_bind].
  by rewrite foldl_addPage.
Qed.

Lemma turn_shift len i (l : list (jsval Item.t)) :
  imap (fun k => turn len (i + 1 + k)) l =
  imap ((fun k => turn len (i + k)) ∘ S) l.
Proof. apply imap_ext. intros k x _. cbn. f_equal. lia. Qed.

Lemma mergeLoop_completes len (rest : list (jsval Item.t))
      (docs : list (PDFDocument Page)) :
  Forall2 (fun it d => decode it = Some d) rest docs ->
  forall i out,
    mergeLoop len i rest out =
    (concat (imap (fun k => turn len (i + k)) rest),
     Some {| getPages := getPages out ++ concat (getPages <$> docs) |}).
Proof.
  induction 1 as [|it d rest docs Hd _ IH]; intros i out.
  - cbn. rewrite app_nil_r. by destruct out.
  - cbn [mergeLoop]. rewrite mergeItem_decode, Hd. cbn [mbind option_bind].
    rewrite IH, turn_shift. cbn [imap concat fmap list_fmap getPages].
    rewrite Nat.add_0_r. unfold turn at 2.
    by rewrite <- !app_assoc.
Qed.

Lemma mergeLoop_aborts len (pre post : list (jsval Item.t)) it
      (docs : list (PDFDocument Page)) :
  Forall2 (fun x d => decode x = Some d) pre docs ->
  decode it = None ->
  forall i out,
    mergeLoop len i (pre ++ it :: post) out =
    (concat (imap (fun k => turn len (i + k)) pre) ++ reads it, None).
Proof.
  intros Hpre Hit. induction Hpre as [|x d pre docs Hd _ IH]; intros i out.
  - cbn. by rewrite mergeItem_decode, Hit.
  - cbn [app mergeLoop]. rewrite mergeItem_decode, Hd.
    cbn [mbind option_bind]. rewrite IH, turn_shift. cbn [imap concat].
    rewrite Nat.add_0_r. unfold turn at 2.
    by rewrite <- !app_assoc.
Qed.

(** Replaying the events of a run touches the progress cell only. *)
Lemma observe_fold evs st :
  items (foldl observe st evs) = items st /\
  isMerging (foldl observe st evs) = isMerging st /\
  mergedPdfUrl (foldl observe st evs) = mergedPdfUrl st /\
  errorMsg (foldl observe st evs) = errorMsg st /\
  dragIndexRef (foldl observe st evs) = dragIndexRef st /\
  progress (foldl observe st evs) =
    default (progress st) (last (progressOf evs)).
Proof.
  induction evs as [|e evs IH] using rev_ind; [done|].
  rewrite foldl_snoc. unfold progressOf in *. rewrite omap_app, last_app.
  destruct IH as (Hi & Hm & Hu & He & Hd & Hp).
  destruct e; cbn; auto 10.
Qed.

Lemma progressOf_turns len (l : list (jsval Item.t)) i :
  progressOf (concat (imap (fun k => turn len (i + k)) l)) =
  (fun c => {| current := c; total := len |}) <$> seq (i + 1) (length l).
Proof.
  revert i. induction l as [|it l IH]; intros i; [done|].
  cbn [imap concat length seq fmap list_fmap].
  rewrite <- turn_shift. unfold progressOf in *.
  rewrite omap_app, IH. rewrite Nat.add_0_r.
  replace (i + 1 + 1) with (S (i + 1)) by lia.
  by destruct it.
Qed.

Lemma filesRead_turns len (l : list (jsval Item.t)) i :
  filesRead (concat (imap (fun k => turn len (i + k)) l)) =
  omap (Js.prop Item.file) l.
Proof.
  revert i. induction l as [|it l IH]; intros i; [done|].
  cbn [imap concat]. rewrite <- turn_shift. unfold filesRead in *.
  rewrite omap_app, IH. by destruct it.
Qed.


Lemma filesRead_run len (l : list (jsval Item.t)) p :
  filesRead (SetProgress p :: concat (imap (turn len) l)) =
  omap (Js.prop Item.file) l.
Proof.
  change (filesRead (SetProgress p :: ?evs)) with (filesRead evs).
  exact (filesRead_turns len l 0).
Qed.

(** The state and the events of a run that gets past the length check,
    from what the loop returns. *)
Lemma mergePdfs_run st evs r :
  2 <= length (items st) ->
  mergeLoop (length (items st)) 0 (items st) create = (evs, r) ->
  let p0 := {| current := 0; total := length (items st) |} in
  let url : option ObjectUrl :=
    out ← r; bytes ← save out;
    Some (createObjectURL
            {| blobParts := [bytes]; blobType := "application/pdf" |}) in
  (mergePdfs st).1 = SetProgress p0 :: evs /\
  items (mergePdfs st).2 = items st /\
  isMerging (mergePdfs st).2 = false /\
  mergedPdfUrl (mergePdfs st).2 = url /\
  errorMsg (mergePdfs st).2 =
    match url with
    | Some _ => I18n.empty
    | None => I18n.t "PdfMerge.mergeFailed" []
    end /\
  progress (mergePdfs st).2 = default p0 (last (progressOf evs)).
Proof.
  intros Hlen Hloop. unfold mergePdfs.
  cbn [items setErrorMsg setMergedPdfUrl setIsMerging setProgress].
  destruct (Nat.ltb_spec (length (items st)) 2) as [?|_]; [lia|].
  rewrite Hloop.
  match goal with |- context [foldl observe ?s evs] =>
    destruct (observe_fold evs s) as (Hi & Hm & Hu & He & Hd & Hp);
    set (st1 := foldl observe s evs) in *
  end.
  cbn in Hi, Hu, He, Hp. cbv zeta.
  destruct r as [out|]; cbn [mbind option_bind];
    [destruct (save out) as [bytes|]; cbn [mbind option_bind]|];
    cbn; auto 10.
Qed.
End MergeRun.

(** ** PdfMerge: what a run delivers *)

Section MergeClaims.
Context {Lib : PdfMerge.PdfLib}.
Import PdfMerge.
Implicit Types (st : State) (docs : list (PDFDocument Page)).

Lemma pageCount_concat docs :
  pageCount {| getPages := concat (getPages <$> docs) |} =
  sum_list (pageCount <$> docs).
Proof.
  unfold pageCount. cbn [getPages].
  induction docs as [|d docs IH]; [done|].
  cbn [fmap list_fmap concat sum_list sum_list_with].
  by rewrite length_app, IH.
Qed.

(** C1. When the queue holds at least two items and every one of them
    reads and parses, the loop of [mergePdfs] ends with one output
    document whose pages are the pages of the sources, each source's
    pages in their own order and the sources in queue order; its page
    count is the sum of the sources' page counts; and the handle that is
    published is the serialisation of exactly that document. *)
Theorem mergePdfs_concatenates st docs :
  2 <= length (items st) ->
  Forall2 (fun it d => decode it = Some d) (items st) docs ->
  let out := {| getPages := concat (getPages <$> docs) |} in
  (mergeLoop (length (items st)) 0 (items st) create).2 = Some out /\
  pageCount out = sum_list (pageCount <$> docs) /\
  mergedPdfUrl (mergePdfs st).2 =
    (bytes ← save out;
     Some (createObjectURL
             {| blobParts := [bytes]; blobType := "application/pdf" |})) /\
  (is_Some (save out) -> errorMsg (mergePdfs st).2 = I18n.empty).
Proof.
  intros Hlen Hdocs out.
  pose proof (mergeLoop_completes (length (items st)) _ _ Hdocs 0 create)
    as Hloop.
  cbn [create getPages app] in Hloop. fold out in Hloop.
  destruct (mergePdfs_run st _ _ Hlen Hloop) as (_ & _ & _ & Hu & He & _).
  cbn [mbind option_bind] in Hu, He.
  split; [by rewrite Hloop|]. split; [apply pageCount_concat|].
  split; [exact Hu|].
  intros [bytes Hb]. fold out in He. by rewrite He, Hb.
Qed.

End MergeClaims.

(** The queue [A.pdf (3 pages), B.pdf (1 page)]: four pages, in the order
    A1, A2, A3, B1. *)
Lemma mergePdfs_concatenates_witness :
  (PdfMerge.mergeLoop (Lib := Sample.lib) 2 0
     (PdfMerge.items Sample.queueAB) PdfMerge.create).2 =
    Some {| PdfMerge.getPages := ["A1"; "A2"; "A3"; "B1"] |} /\
  PdfMerge.pageCount (Lib := Sample.lib)
    {| PdfMerge.getPages := ["A1"; "A2"; "A3"; "B1"] |} = 3 + 1.
Proof.
  assert (H2 : 2 <= length (PdfMerge.items Sample.queueAB))
    by (vm_compute; lia).
  assert (Hd : Forall2
                 (fun it d => PdfMerge.decode (Lib := Sample.lib) it = Some d)
                 (PdfMerge.items Sample.queueAB) [Sample.docA; Sample.docB]).
  { repeat constructor. }
  destruct (mergePdfs_concatenates (Lib := Sample.lib) Sample.queueAB
              [Sample.docA; Sample.docB] H2 Hd) as (Hout & Hcount & _).
  split; [exact Hout | exact Hcount].
Defined.


(** ** JpgToPdf: pages and runs *)

Section ConvertRun.
Context {B : JpgToPdf.Browser}.
Import JpgToPdf.
Implicit Types (st : State) (it : jsval Item.t) (pdf : option jsPDF).

Lemma onCurrent_snoc (f : PdfPage -> PdfPage) (l : list PdfPage) pg :
  onCurrent f (l ++ [pg]) = l ++ [f pg].
Proof.
  induction l as [|x l IH]; [done|].
  cbn [app onCurrent]. rewrite IH. by destruct l.
Qed.

(** One turn appends one page, with one image on it. *)
Lemma placeImage_pages (file : File.t) (dataUrl : DataUrl) (img : Image) pdf :
  let wPt := pagePt (naturalWidth img) in
  let hPt := pagePt (naturalHeight img) in
  pdfPages (placeImage file dataUrl img pdf) =
  pagesOf pdf ++
    [{| pageFormat := (wPt, hPt);
        pageOrientation := orientationOf wPt hPt;
        pageImages :=
          [{| imageData := dataUrl;
              imageFormat :=
                if String.eqb (File.type file) "image/jpeg"
                   || String.eqb (File.type file) "image/jpg"
                then "JPEG" else "PNG";
              imageX := 0; imageY := 0;
              imageWidth := wPt; imageHeight := hPt |}] |}].
Proof.
  intros wPt hPt. unfold placeImage. fold wPt hPt.
  destruct pdf as [pdf|]; unfold addImage, addPage, new_jsPDF, blankPage;
    cbn [pdfPages pagesOf].
  - by rewrite onCurrent_snoc.
  - done.
Qed.

Lemma pagePt_unclamped (px : N) : (2 <= px)%N -> pagePt px == pxToPt px.
Proof.
  intros Hpx. unfold pagePt. apply Q.max_r.
  unfold pxToPt, Qle, inject_Z. cbn. lia.
Qed.

Lemma convertItem_decode it pdf :
  convertItem it pdf =
  (attempts it,
   x ← decode it; Some (placeImage x.1.1 x.1.2 x.2 pdf)).
Proof.
  unfold attempts, convertItem, decode.
  destruct (Js.prop Item.file it) as [f|]; [|done]. cbn [mbind option_bind].
  destruct (readFileAsDataUrl f) as [d|]; [|done]. cbn [mbind option_bind].
  by destruct (loadImage d).
Qed.

Lemma convertLoop_aborts (pre post : list (jsval Item.t)) it
      (xs : list (File.t * DataUrl * Image)) :
  Forall2 (fun x y => decode x = Some y) pre xs ->
  decode it = None ->
  forall pdf,
    convertLoop (pre ++ it :: post) pdf =
    (concat (attempts <$> pre) ++ attempts it, None).
Proof.
  intros Hpre Hit. induction Hpre as [|x y pre xs Hx _ IH]; intros pdf.
  - cbn [app fmap list_fmap concat convertLoop].
    by rewrite convertItem_decode, Hit.
  - cbn [app convertLoop]. rewrite convertItem_decode, Hx.
    cbn [mbind option_bind]. rewrite IH.
    cbn [fmap list_fmap concat]. by rewrite <- app_assoc.
Qed.

(** The pages a complete pass of the loop leaves behind. *)
Lemma convertLoop_completes (rest : list (jsval Item.t))
      (xs : list (File.t * DataUrl * Image)) :
  Forall2 (fun x y => decode x = Some y) rest xs ->
  forall pdf,
    exists r,
      convertLoop rest pdf = (concat (attempts <$> rest), Some r) /\
      pagesOf r =
      pagesOf pdf ++
        ((fun y => {| pageFormat := (pagePt (naturalWidth y.2),
                                     pagePt (naturalHeight y.2));
                      pageOrientation :=
                        orientationOf (pagePt (naturalWidth y.2))
                                      (pagePt (naturalHeight y.2));
                      pageImages :=
                        [{| imageData := y.1.2;
                            imageFormat :=
                              if String.eqb (File.type y.1.1) "image/jpeg"
                                 || String.eqb (File.type y.1.1) "image/jpg"
                              then "JPEG" else "PNG";
                            imageX := 0; imageY := 0;
                            imageWidth := pagePt (naturalWidth y.2);
                            imageHeight := pagePt (naturalHeight y.2) |}] |})
           <$> xs) /\
      (rest <> [] -> is_Some r).
Proof.
  induction 1 as [|x y rest xs Hx _ IH]; intros pdf.
  - exists pdf. cbn. by rewrite app_nil_r.
  - cbn [convertLoop]. rewrite convertItem_decode, Hx.
    cbn [mbind option_bind].
    destruct (IH (Some (placeImage y.1.1 y.1.2 y.2 pdf)))
      as (r & Hloop & Hpages & Hsome).
    exists r. rewrite Hloop. split; [done|]. split.
    + rewrite Hpages. cbn [pagesOf]. rewrite placeImage_pages.
      cbn [fmap list_fmap]. by rewrite <- app_assoc.
    + intros _. destruct rest as [|z rest].
      * cbn in Hloop. injection Hloop as <-. eauto.
      * by apply Hsome.
Qed.

(** The state and the events of a run over a queue that is not empty,
    from what the loop returns. *)
Lemma convertToPdf_run st evs r :
  items st <> [] ->
  convertLoop (items st) None = (evs, r) ->
  let url : option ObjectUrl :=
    pdf ← r; pdf ← pdf; Some (createObjectURL (inr (output pdf))) in
  (convertToPdf st).1 = evs /\
  items (convertToPdf st).2 = items st /\
  isConverting (convertToPdf st).2 = false /\
  pdfUrl (convertToPdf st).2 = url /\
  errorMsg (convertToPdf st).2 =
    match url with
    | Some _ => I18n.empty
    | None => I18n.t "JpgToPdf.convertFailed" []
    end.
Proof.
  intros Hne Hloop. unfold convertToPdf.
  cbn [items setErrorMsg setPdfUrl setIsConverting].
  destruct (items st) as [|it rest] eqn:Hitems; [done|]. cbn [length Nat.eqb].
  rewrite Hloop.
  destruct r as [[pdf|]|]; cbn; auto 10.
Qed.
End ConvertRun.

(** ** Runs that fail *)

Lemma first_failure {A B : Type} (f : A -> option B) (l : list A) :
  Exists (fun x => f x = None) l ->
  exists pre x post ys,
    l = pre ++ x :: post /\ f x = None /\
    Forall2 (fun a b => f a = Some b) pre ys.
Proof.
  induction l as [|a l IH]; intros Hex; [by inversion Hex|].
  destruct (f a) as [b|] eqn:Ha.
  - inversion Hex as [? ? Hnone|? ? Hex']; subst; [congruence|].
    destruct (IH Hex') as (pre & x & post & ys & -> & Hx & Hpre).
    exists (a :: pre), x, post, (b :: ys). by repeat split; [|constructor].
  - exists [], a, l, []. by repeat split; [|constructor].
Qed.

Lemma Forall2_is_Some {A B : Type} (f : A -> option B) (l : list A) ys :
  Forall2 (fun a b => f a = Some b) l ys -> Forall (fun a => is_Some (f a)) l.
Proof. induction 1; constructor; eauto. Qed.

Section MergeFailure.
Context {Lib : PdfMerge.PdfLib}.
Import PdfMerge.

Lemma mergePdfs_failure (st : State) :
  2 <= length (items st) ->
  Exists (fun it => decode it = None) (items st) ->
  mergedPdfUrl (mergePdfs st).2 = None /\
  errorMsg (mergePdfs st).2 = I18n.t "PdfMerge.mergeFailed" [] /\
  items (mergePdfs st).2 = items st /\
  isMerging (mergePdfs st).2 = false /\
  exists pre it post,
    items st = pre ++ it :: post /\
    Forall (fun x => is_Some (decode x)) pre /\
    decode it = None /\
    (mergePdfs st).1 =
      SetProgress {| current := 0; total := length (items st) |}
        :: concat (imap (turn (length (items st))) pre) ++ reads it.
Proof.
  intros Hlen Hex.
  destruct (first_failure _ _ Hex) as (pre & it & post & ys & Hl & Hit & Hpre).
  pose proof (mergeLoop_aborts (length (items st)) pre post it ys Hpre Hit
                               0 create) as Hloop.
  rewrite <- Hl in Hloop.
  destruct (mergePdfs_run st _ _ Hlen Hloop) as (Hev & Hi & Hm & Hu & He & _).
  cbn [mbind option_bind] in Hu, He.
  repeat split; try done.
  exists pre, it, post. repeat split; try done.
  by eapply Forall2_is_Some.
Qed.
End MergeFailure.

Section ConvertFailure.
Context {B : JpgToPdf.Browser}.
Import JpgToPdf.

Lemma convertToPdf_failure (st : State) :
  Exists (fun it => decode it = None) (items st) ->
  pdfUrl (convertToPdf st).2 = None /\
  errorMsg (convertToPdf st).2 = I18n.t "JpgToPdf.convertFailed" [] /\
  items (convertToPdf st).2 = items st /\
  isConverting (convertToPdf st).2 = false /\
  exists pre it post,
    items st = pre ++ it :: post /\
    Forall (fun x => is_Some (decode x)) pre /\
    decode it = None /\
    (convertToPdf st).1 = concat (attempts <$> pre) ++ attempts it.
Proof.
  intros Hex.
  destruct (first_failure _ _ Hex) as (pre & it & post & ys & Hl & Hit & Hpre).
  pose proof (convertLoop_aborts pre post it ys Hpre Hit None) as Hloop.
  rewrite <- Hl in Hloop.
  assert (Hne : items st <> []) by (rewrite Hl; by destruct pre).
  destruct (convertToPdf_run st _ _ Hne Hloop) as (Hev & Hi & Hm & Hu & He).
  cbn [mbind option_bind] in Hu, He.
  repeat split; try done.
  exists pre, it, post. repeat split; try done.
  by eapply Forall2_is_Some.
Qed.
End ConvertFailure.

(** C2. A run in which reading or decoding some item fails stops at the
    first such item: the items before it are processed, the failing one is
    attempted, nothing after it is touched.  The output handle, cleared at
    the start of the run, stays cleared; the error message is the one
    generic failure message of the tool; the queue is the same as before
    the run.  This holds for [mergePdfs] (on a queue that passes its
    two-item check) and for [convertToPdf]. *)
Theorem failed_run_publishes_nothing :
  (forall (Lib : PdfMerge.PdfLib) (st : PdfMerge.State),
      2 <= length (PdfMerge.items st) ->
      Exists (fun it => PdfMerge.decode it = None) (PdfMerge.items st) ->
      PdfMerge.mergedPdfUrl (PdfMerge.mergePdfs st).2 = None /\
      PdfMerge.errorMsg (PdfMerge.mergePdfs st).2 =
        I18n.t "PdfMerge.mergeFailed" [] /\
      PdfMerge.items (PdfMerge.mergePdfs st).2 = PdfMerge.items st /\
      PdfMerge.isMerging (PdfMerge.mergePdfs st).2 = false /\
      exists pre it post,
        PdfMerge.items st = pre ++ it :: post /\
        Forall (fun x => is_Some (PdfMerge.decode x)) pre /\
        PdfMerge.decode it = None /\
        (PdfMerge.mergePdfs st).1 =
          PdfMerge.SetProgress
            {| PdfMerge.current := 0;
               PdfMerge.total := length (PdfMerge.items st) |}
            :: concat (imap (PdfMerge.turn (length (PdfMerge.items st))) pre)
            ++ PdfMerge.reads it) /\
  (forall (B : JpgToPdf.Browser) (st : JpgToPdf.State),
      Exists (fun it => JpgToPdf.decode it = None) (JpgToPdf.items st) ->
      JpgToPdf.pdfUrl (JpgToPdf.convertToPdf st).2 = None /\
      JpgToPdf.errorMsg (JpgToPdf.convertToPdf st).2 =
        I18n.t "JpgToPdf.convertFailed" [] /\
      JpgToPdf.items (JpgToPdf.convertToPdf st).2 = JpgToPdf.items st /\
      JpgToPdf.isConverting (JpgToPdf.convertToPdf st).2 = false /\
      exists pre it post,
        JpgToPdf.items st = pre ++ it :: post /\
        Forall (fun x => is_Some (JpgToPdf.decode x)) pre /\
        JpgToPdf.decode it = None /\
        (JpgToPdf.convertToPdf st).1 =
          concat (JpgToPdf.attempts <$> pre) ++ JpgToPdf.attempts it).
Proof.
  split.
  - intros Lib st. apply mergePdfs_failure.
  - intros B st. apply convertToPdf_failure.
Qed.

Lemma failed_run_publishes_nothing_witness :
  PdfMerge.mergedPdfUrl
    (PdfMerge.mergePdfs (Lib := Sample.lib) Sample.queueAxB).2 = None /\
  PdfMerge.items (PdfMerge.mergePdfs (Lib := Sample.lib) Sample.queueAxB).2 =
    PdfMerge.items Sample.queueAxB /\
  JpgToPdf.pdfUrl
    (JpgToPdf.convertToPdf (B := Sample.browser) Sample.galleryTorn).2 = None /\
  JpgToPdf.items
    (JpgToPdf.convertToPdf (B := Sample.browser) Sample.galleryTorn).2 =
    JpgToPdf.items Sample.galleryTorn.
Proof.
  assert (H2 : 2 <= length (PdfMerge.items Sample.queueAxB))
    by (vm_compute; lia).
  assert (Hm : Exists (fun it => PdfMerge.decode (Lib := Sample.lib) it = None)
                      (PdfMerge.items Sample.queueAxB)).
  { apply Exists_cons_tl, Exists_cons_hd. vm_compute. reflexivity. }
  assert (Hc : Exists (fun it => JpgToPdf.decode (B := Sample.browser) it = None)
                      (JpgToPdf.items Sample.galleryTorn)).
  { apply Exists_cons_tl, Exists_cons_hd. vm_compute. reflexivity. }
  destruct failed_run_publishes_nothing as [Hmerge Hconvert].
  destruct (Hmerge Sample.lib Sample.queueAxB H2 Hm) as (Hu & _ & Hi & _).
  destruct (Hconvert Sample.browser Sample.galleryTorn Hc) as (Hu' & _ & Hi' & _).
  repeat split; assumption.
Defined.

(** ** JpgToPdf: the page made for an image *)

(** C8 fails as stated on an image of one pixel by one pixel: its page is
    1 pt by 1 pt, while the converted size is 0.75 pt by 0.75 pt. *)
Lemma one_pixel_page_is_not_the_converted_size :
  let img := {| JpgToPdf.naturalWidth := 1; JpgToPdf.naturalHeight := 1 |} in
  JpgToPdf.pageFormat <$>
    JpgToPdf.pdfPages (JpgToPdf.placeImage Sample.dot "dot.png" img None) =
    [(1, 1)%Q] /\
  ~ (1 == JpgToPdf.pxToPt (JpgToPdf.naturalWidth img))%Q /\
  ~ (1 == JpgToPdf.pxToPt (JpgToPdf.naturalHeight img))%Q.
Proof. vm_compute. repeat split; discriminate. Qed.

Lemma pagePt_within_limit (px : N) :
  (px <= 19200)%N ->
  (Qmin JpgToPdf.maxPageSide (JpgToPdf.pagePt px) == JpgToPdf.pagePt px)%Q.
Proof.
  intros Hpx. apply Q.min_r. unfold JpgToPdf.pagePt, JpgToPdf.maxPageSide.
  apply Q.max_lub; [done|].
  unfold JpgToPdf.pxToPt, Qle, Qmult, inject_Z. cbn [Qnum Qden]. lia.
Qed.

(** An image of 20000 by 10 pixels: the format passed is 15000 pt by
    7.5 pt and the image is placed 15000 pt wide, on a page that jsPDF
    makes 14400 pt wide. *)
Example oversized_page_is_cut :
  let img := {| JpgToPdf.naturalWidth := 20000; JpgToPdf.naturalHeight := 10 |} in
  exists pg pl,
    JpgToPdf.pdfPages (JpgToPdf.placeImage Sample.icon "icon.png" img None) =
      [pg] /\
    JpgToPdf.pageImages pg = [pl] /\
    ((JpgToPdf.pageFormat pg).1 == 15000)%Q /\
    (JpgToPdf.imageWidth pl == 15000)%Q /\
    ((JpgToPdf.pageSize pg).1 == 14400)%Q /\
    ((JpgToPdf.pageSize pg).2 == 7.5)%Q.
Proof. eexists _, _. vm_compute. repeat split. Qed.

(** C8, amended.  For a decoded image of [w] by [h] pixels, each dimension
    is converted with the one factor 0.75 and then raised to at least 1.
    The turn appends exactly one page: the format passed to jsPDF for it
    is exactly that width and height, the orientation passed is landscape
    when that width is greater than or equal to that height and portrait
    otherwise, and the image is placed once, at the origin, with the width
    and height of that format.  When neither dimension exceeds 19200
    pixels (14400 pt, the longest side jsPDF produces) the page produced
    has exactly that size, so that the image fills it.  From two pixels on
    the raising changes nothing, so the size is the converted size
    itself. *)
Theorem placeImage_page (file : File.t) (dataUrl : JpgToPdf.DataUrl)
        (img : JpgToPdf.Image) (pdf : option JpgToPdf.jsPDF) :
  let w := JpgToPdf.naturalWidth img in
  let h := JpgToPdf.naturalHeight img in
  let wPt := Qmax 1 (inject_Z (Z.of_N w) * 0.75) in
  let hPt := Qmax 1 (inject_Z (Z.of_N h) * 0.75) in
  let pl :=
    {| JpgToPdf.imageData := dataUrl;
       JpgToPdf.imageFormat :=
         if String.eqb (File.type file) "image/jpeg"
            || String.eqb (File.type file) "image/jpg"
         then "JPEG" else "PNG";
       JpgToPdf.imageX := 0; JpgToPdf.imageY := 0;
       JpgToPdf.imageWidth := wPt;
       JpgToPdf.imageHeight := hPt |} in
  let pg :=
    {| JpgToPdf.pageFormat := (wPt, hPt);
       JpgToPdf.pageOrientation := if Qle_bool hPt wPt then "l" else "p";
       JpgToPdf.pageImages := [pl] |} in
  JpgToPdf.pdfPages (JpgToPdf.placeImage file dataUrl img pdf) =
    JpgToPdf.pagesOf pdf ++ [pg] /\
  (Qle_bool hPt wPt = true <-> (hPt <= wPt)%Q) /\
  ((2 <= w)%N -> (wPt == inject_Z (Z.of_N w) * 0.75)%Q) /\
  ((2 <= h)%N -> (hPt == inject_Z (Z.of_N h) * 0.75)%Q) /\
  ((w <= 19200)%N -> (h <= 19200)%N ->
   ((JpgToPdf.pageSize pg).1 == wPt)%Q /\
   ((JpgToPdf.pageSize pg).2 == hPt)%Q /\
   (JpgToPdf.imageWidth pl == (JpgToPdf.pageSize pg).1)%Q /\
   (JpgToPdf.imageHeight pl == (JpgToPdf.pageSize pg).2)%Q).
Proof.
  intros w h wPt hPt pl pg. split; [apply placeImage_pages|].
  split; [apply Qle_bool_iff|].
  split; [intros Hpx; apply (pagePt_unclamped _ Hpx)|].
  split; [intros Hpx; apply (pagePt_unclamped _ Hpx)|].
  intros Hw Hh.
  pose proof (pagePt_within_limit w Hw) as Hwidth.
  pose proof (pagePt_within_limit h Hh) as Hheight.
  unfold JpgToPdf.pageSize.
  cbn [JpgToPdf.pageFormat JpgToPdf.imageWidth JpgToPdf.imageHeight fst snd
       pg pl].
  split_and!; [exact Hwidth | exact Hheight | |]; symmetry; assumption.
Qed.

Lemma placeImage_page_witness :
  (Qmax 1 (inject_Z (Z.of_N 800) * 0.75) == inject_Z (Z.of_N 800) * 0.75)%Q /\
  (Qmax 1 (inject_Z (Z.of_N 600) * 0.75) == inject_Z (Z.of_N 600) * 0.75)%Q /\
  (Qmin JpgToPdf.maxPageSide (Qmax 1 (inject_Z (Z.of_N 800) * 0.75))
   == Qmax 1 (inject_Z (Z.of_N 800) * 0.75))%Q /\
  (Qmin JpgToPdf.maxPageSide (Qmax 1 (inject_Z (Z.of_N 600) * 0.75))
   == Qmax 1 (inject_Z (Z.of_N 600) * 0.75))%Q.
Proof.
  destruct (placeImage_page Sample.photo "photo.jpg"
              {| JpgToPdf.naturalWidth := 800; JpgToPdf.naturalHeight := 600 |}
              None) as (_ & _ & Hw & Hh & Hfits).
  destruct Hfits as (Hwidth & Hheight & _);
    [vm_compute; discriminate | vm_compute; discriminate |].
  split_and!; [apply Hw | apply Hh | exact Hwidth | exact Hheight];
    vm_compute; discriminate.
Defined.

(** C10.  Whatever the pixel size of the decoded image, zero and one
    included, the page appended for it is at least 1 pt wide and 1 pt
    high: both dimensions are raised to 1 before they are used, and the
    same raised values are the page size, the input of the orientation
    choice and the size at which the image is placed. *)
Theorem page_at_least_one_point (file : File.t) (dataUrl : JpgToPdf.DataUrl)
        (img : JpgToPdf.Image) (pdf : option JpgToPdf.jsPDF) :
  exists pg pl,
    JpgToPdf.pdfPages (JpgToPdf.placeImage file dataUrl img pdf) =
      JpgToPdf.pagesOf pdf ++ [pg] /\
    JpgToPdf.pageImages pg = [pl] /\
    JpgToPdf.pageFormat pg =
      (Qmax 1 (JpgToPdf.pxToPt (JpgToPdf.naturalWidth img)),
       Qmax 1 (JpgToPdf.pxToPt (JpgToPdf.naturalHeight img))) /\
    (1 <= (JpgToPdf.pageFormat pg).1)%Q /\
    (1 <= (JpgToPdf.pageFormat pg).2)%Q /\
    JpgToPdf.pageOrientation pg =
      JpgToPdf.orientationOf (JpgToPdf.pageFormat pg).1
                             (JpgToPdf.pageFormat pg).2 /\
    JpgToPdf.imageWidth pl = (JpgToPdf.pageFormat pg).1 /\
    JpgToPdf.imageHeight pl = (JpgToPdf.pageFormat pg).2.
Proof.
  eexists _, _. split; [apply placeImage_pages|].
  cbn [JpgToPdf.pageImages JpgToPdf.pageFormat JpgToPdf.pageOrientation
       JpgToPdf.imageWidth JpgToPdf.imageHeight fst snd].
  repeat split; apply Q.le_max_l.
Qed.

Example page_of_empty_image :
  JpgToPdf.pageFormat <$>
    JpgToPdf.pdfPages
      (JpgToPdf.placeImage Sample.dot "dot.png"
         {| JpgToPdf.naturalWidth := 0; JpgToPdf.naturalHeight := 0 |} None) =
  [(1, 1)%Q].
Proof. vm_compute. reflexivity. Qed.

(** A whole run over images that all decode publishes a document with one
    such page per queue item, in queue order. *)
Lemma convertToPdf_pages {B : JpgToPdf.Browser} (st : JpgToPdf.State)
      (xs : list (File.t * JpgToPdf.DataUrl * JpgToPdf.Image)) :
  JpgToPdf.items st <> [] ->
  Forall2 (fun it x => JpgToPdf.decode it = Some x) (JpgToPdf.items st) xs ->
  exists pdf,
    JpgToPdf.pdfUrl (JpgToPdf.convertToPdf st).2 =
      Some (JpgToPdf.createObjectURL (inr (JpgToPdf.output pdf))) /\
    JpgToPdf.pageFormat <$> JpgToPdf.pdfPages pdf =
      (fun x => (JpgToPdf.pagePt (JpgToPdf.naturalWidth x.2),
                 JpgToPdf.pagePt (JpgToPdf.naturalHeight x.2))) <$> xs.
Proof.
  intros Hne Hxs.
  destruct (convertLoop_completes _ _ Hxs None) as (r & Hloop & Hpages & Hsome).
  destruct (Hsome Hne) as [pdf ->].
  destruct (convertToPdf_run st _ _ Hne Hloop) as (_ & _ & _ & Hu & _).
  exists pdf. split; [exact Hu|].
  cbn [JpgToPdf.pagesOf app] in Hpages. rewrite Hpages.
  rewrite <- list_fmap_compose. done.
Qed.

(** ** Drops *)

Lemma relocated_same {A : Type} (t : nat) (l : list A) : relocated t t l l.
Proof.
  split; [done|]. intros i.
  repeat case_decide; subst; try lia; done.
Qed.

Lemma reorder_relocated {A : Type} (s t : nat) (l : list (jsval A)) :
  s < length l -> t < length l -> relocated s t l (reorder s t l).
Proof.
  intros Hs Ht. split.
  - by apply length_reorder_in_range.
  - intros i. by apply lookup_reorder.
Qed.

Lemma reorder_first_to_third {A : Type} (X Y Z : jsval A) :
  reorder 0 2 [X; Y; Z] = [Y; Z; X].
Proof. reflexivity. Qed.

(** What [onDrop] leaves in the three cells it touches. *)
Lemma PdfMerge_onDrop_cells (t : nat) (st : PdfMerge.State) :
  PdfMerge.dragIndexRef (PdfMerge.onDrop t st) = None /\
  PdfMerge.items (PdfMerge.onDrop t st) =
    match PdfMerge.dragIndexRef st with
    | Some s => if s =? t then PdfMerge.items st
                else reorder s t (PdfMerge.items st)
    | None => PdfMerge.items st
    end /\
  PdfMerge.mergedPdfUrl (PdfMerge.onDrop t st) =
    match PdfMerge.dragIndexRef st with
    | Some s => if s =? t then PdfMerge.mergedPdfUrl st else None
    | None => PdfMerge.mergedPdfUrl st
    end.
Proof.
  unfold PdfMerge.onDrop.
  destruct (PdfMerge.dragIndexRef st) as [s|]; [|done].
  by destruct (s =? t).
Qed.

Lemma JpgToPdf_onDrop_cells (t : nat) (st : JpgToPdf.State) :
  JpgToPdf.dragIndexRef (JpgToPdf.onDrop t st) = None /\
  JpgToPdf.items (JpgToPdf.onDrop t st) =
    match JpgToPdf.dragIndexRef st with
    | Some s => if s =? t then JpgToPdf.items st
                else reorder s t (JpgToPdf.items st)
    | None => JpgToPdf.items st
    end /\
  JpgToPdf.pdfUrl (JpgToPdf.onDrop t st) =
    match JpgToPdf.dragIndexRef st with
    | Some s => if s =? t then JpgToPdf.pdfUrl st else None
    | None => JpgToPdf.pdfUrl st
    end.
Proof.
  unfold JpgToPdf.onDrop.
  destruct (JpgToPdf.dragIndexRef st) as [s|]; [|done].
  by destruct (s =? t).
Qed.

(** C6.  In both components: a drop with no drag recorded, or onto the
    index the drag started from, leaves the queue as it is; a drop at [t]
    of a drag recorded at [s], both inside the queue, yields the queue with
    the item of position [s] at position [t] and the items between the two
    positions shifted by one; the recorded drag is forgotten in every
    case.  Dragging position 0 onto position 2 of [X, Y, Z] gives
    [Y, Z, X]. *)
Theorem onDrop_relocates (s t : nat) :
  (forall st : PdfMerge.State,
      (PdfMerge.dragIndexRef st = None ->
       PdfMerge.items (PdfMerge.onDrop t st) = PdfMerge.items st) /\
      (PdfMerge.dragIndexRef st = Some t ->
       PdfMerge.items (PdfMerge.onDrop t st) = PdfMerge.items st) /\
      (PdfMerge.dragIndexRef st = Some s ->
       s < length (PdfMerge.items st) -> t < length (PdfMerge.items st) ->
       relocated s t (PdfMerge.items st)
                 (PdfMerge.items (PdfMerge.onDrop t st))) /\
      (forall X Y Z,
          PdfMerge.items st = [X; Y; Z] -> PdfMerge.dragIndexRef st = Some 0 ->
          PdfMerge.items (PdfMerge.onDrop 2 st) = [Y; Z; X]) /\
      PdfMerge.dragIndexRef (PdfMerge.onDrop t st) = None) /\
  (forall st : JpgToPdf.State,
      (JpgToPdf.dragIndexRef st = None ->
       JpgToPdf.items (JpgToPdf.onDrop t st) = JpgToPdf.items st) /\
      (JpgToPdf.dragIndexRef st = Some t ->
       JpgToPdf.items (JpgToPdf.onDrop t st) = JpgToPdf.items st) /\
      (JpgToPdf.dragIndexRef st = Some s ->
       s < length (JpgToPdf.items st) -> t < length (JpgToPdf.items st) ->
       relocated s t (JpgToPdf.items st)
                 (JpgToPdf.items (JpgToPdf.onDrop t st))) /\
      (forall X Y Z,
          JpgToPdf.items st = [X; Y; Z] -> JpgToPdf.dragIndexRef st = Some 0 ->
          JpgToPdf.items (JpgToPdf.onDrop 2 st) = [Y; Z; X]) /\
      JpgToPdf.dragIndexRef (JpgToPdf.onDrop t st) = None).
Proof.
  split; intros st.
  - destruct (PdfMerge_onDrop_cells t st) as (Hd & Hi & _).
    destruct (PdfMerge_onDrop_cells 2 st) as (_ & Hi2 & _).
    split_and!; [| | | |exact Hd].
    + intros Hnone. by rewrite Hi, Hnone.
    + intros Hsame. by rewrite Hi, Hsame, Nat.eqb_refl.
    + intros Hdrag Hs Ht. rewrite Hi, Hdrag.
      destruct (Nat.eqb_spec s t) as [->|_].
      * apply relocated_same.
      * by apply reorder_relocated.
    + intros X Y Z Hxyz Hdrag. by rewrite Hi2, Hdrag, Hxyz.
  - destruct (JpgToPdf_onDrop_cells t st) as (Hd & Hi & _).
    destruct (JpgToPdf_onDrop_cells 2 st) as (_ & Hi2 & _).
    split_and!; [| | | |exact Hd].
    + intros Hnone. by rewrite Hi, Hnone.
    + intros Hsame. by rewrite Hi, Hsame, Nat.eqb_refl.
    + intros Hdrag Hs Ht. rewrite Hi, Hdrag.
      destruct (Nat.eqb_spec s t) as [->|_].
      * apply relocated_same.
      * by apply reorder_relocated.
    + intros X Y Z Hxyz Hdrag. by rewrite Hi2, Hdrag, Hxyz.
Qed.

Lemma onDrop_relocates_witness :
  let st := PdfMerge.onDragStart 0 Sample.queueABC in
  relocated 0 2 (PdfMerge.items st) (PdfMerge.items (PdfMerge.onDrop 2 st)) /\
  PdfMerge.items (PdfMerge.onDrop 2 st) =
    [Sample.itemOf 1 Sample.fileB; Sample.itemOf 2 Sample.fileC;
     Sample.itemOf 0 Sample.fileA].
Proof.
  intros st.
  destruct (onDrop_relocates 0 2) as [Hmerge _].
  destruct (Hmerge st) as (_ & _ & Hmove & Hxyz & _).
  split.
  - apply Hmove; [reflexivity | vm_compute; lia | vm_compute; lia].
  - apply Hxyz; reflexivity.
Defined.

(** A drop whose recorded drag index lies past the end of the queue
    removes nothing and splices [undefined] in at the drop index: the
    queue grows by one element that is no item. *)
Lemma onDrop_stale_index (s t : nat) :
  (forall st : PdfMerge.State,
      PdfMerge.dragIndexRef st = Some s -> s <> t ->
      length (PdfMerge.items st) <= s ->
      PdfMerge.items (PdfMerge.onDrop t st) =
        take t (PdfMerge.items st) ++ undefined :: drop t (PdfMerge.items st)) /\
  (forall st : JpgToPdf.State,
      JpgToPdf.dragIndexRef st = Some s -> s <> t ->
      length (JpgToPdf.items st) <= s ->
      JpgToPdf.items (JpgToPdf.onDrop t st) =
        take t (JpgToPdf.items st) ++ undefined :: drop t (JpgToPdf.items st)).
Proof.
  split; intros st Hdrag Hne Hlen.
  - destruct (PdfMerge_onDrop_cells t st) as (_ & -> & _). rewrite Hdrag.
    destruct (Nat.eqb_spec s t) as [?|_]; [done|].
    by apply reorder_out_of_range.
  - destruct (JpgToPdf_onDrop_cells t st) as (_ & -> & _). rewrite Hdrag.
    destruct (Nat.eqb_spec s t) as [?|_]; [done|].
    by apply reorder_out_of_range.
Qed.

(** C4 does not hold of the code.  Add three files, start dragging the
    third item, remove that item while [dragIndexRef] still holds 2, then
    let a drop arrive on the first item: the queue of two items becomes a
    queue of three whose first element is [undefined], and the next
    handler that reads an item's property throws. *)
Theorem onDrop_stale_index_inserts_undefined :
  let dragging := PdfMerge.onDragStart 2 Sample.queueABC in
  PdfMerge.items Sample.queueABC =
    PdfMerge.items
      (PdfMerge.addFiles Sample.token
         [Sample.fileA; Sample.fileB; Sample.fileC] PdfMerge.mount) /\
  exists removed,
    PdfMerge.removeItem "uuid2-C.PDF" dragging = Some removed /\
    PdfMerge.items removed =
      [Sample.itemOf 0 Sample.fileA; Sample.itemOf 1 Sample.fileB] /\
    PdfMerge.dragIndexRef removed = Some 2 /\
    PdfMerge.items (PdfMerge.onDrop 0 removed) =
      [undefined; Sample.itemOf 0 Sample.fileA; Sample.itemOf 1 Sample.fileB] /\
    PdfMerge.items (PdfMerge.onDrop 0 removed) <> PdfMerge.items removed /\
    PdfMerge.removeItem "uuid0-A.pdf" (PdfMerge.onDrop 0 removed) = None.
Proof.
  intros dragging. split; [vm_compute; reflexivity|].
  eexists. split; [vm_compute; reflexivity|].
  vm_compute. repeat split; discriminate.
Qed.

(** ** Mutations of the queue and the output handle *)

Section Callbacks.
Context {A : Type}.
Implicit Types (l : list A).

Lemma filter_total (cb : A -> option bool) l :
  Forall (fun x => is_Some (cb x)) l -> is_Some (Js.filter cb l).
Proof.
  induction 1 as [|x l [b Hb] _ [r Hr]]; [by eexists|].
  cbn [Js.filter]. rewrite Hb, Hr. by eexists.
Qed.

Lemma find_total (cb : A -> option bool) l :
  Forall (fun x => is_Some (cb x)) l -> is_Some (Js.find cb l).
Proof.
  induction 1 as [|x l [b Hb] _ IH]; [by eexists|].
  cbn [Js.find]. rewrite Hb. cbn. destruct b; [by eexists | done].
Qed.

Lemma forEach_total {B : Type} (cb : A -> option B) l :
  Forall (fun x => is_Some (cb x)) l -> is_Some (Js.forEach cb l).
Proof.
  induction 1 as [|x l [b Hb] _ [r Hr]]; [by eexists|].
  cbn [Js.forEach]. rewrite Hb, Hr. by eexists.
Qed.
End Callbacks.

Lemma prop_defined {A B C : Type} (get : A -> B) (k : B -> C)
      (l : list (jsval A)) :
  Forall defined l ->
  Forall (fun x => is_Some (y ← Js.prop get x; Some (k y))) l.
Proof.
  intros Hdef. eapply Forall_impl; [exact Hdef|].
  intros [|a] Hx; [by destruct Hx | by eexists].
Qed.

Section MergeMutations.
Import PdfMerge.
Implicit Types (st : State).

(** The three cells of the state that [addFiles] can change. *)
Lemma PdfMerge_addFiles_cells token (fl : list File.t) st :
  let valid := List.filter isValid fl in
  let slots := (MAX_FILES - Z.of_nat (length (items st)))%Z in
  mergedPdfUrl (addFiles token fl st) = None /\
  items (addFiles token fl st) =
    (if (length fl =? 0) || (slots <=? 0)%Z then items st
     else items st
            ++ map object (imap (newItem token) (take (Z.to_nat slots) valid))) /\
  errorMsg (addFiles token fl st) =
    (if length fl =? 0 then I18n.empty
     else if (slots <=? 0)%Z
     then I18n.t "PdfMerge.maxFilesReached" [("max", MAX_FILES)]
     else if (Z.of_nat (length valid) >? slots)%Z
     then I18n.t "PdfMerge.someFilesIgnored" [("max", MAX_FILES)]
     else if negb (length valid =? length fl)
     then I18n.t "PdfMerge.invalidFileType" []
     else I18n.empty).
Proof.
  intros valid slots. unfold addFiles, Js.slice0. fold valid.
  destruct (length fl =? 0); [done|].
  destruct (negb (length valid =? length fl));
    cbn [items setErrorMsg setMergedPdfUrl]; fold slots;
    destruct (slots <=? 0)%Z; try done;
    by destruct (Z.of_nat (length valid) >? slots)%Z.
Qed.

Lemma PdfMerge_removeItem_cells id st st' :
  removeItem id st = Some st' ->
  mergedPdfUrl st' = None /\ dragIndexRef st' = dragIndexRef st.
Proof.
  unfold removeItem. cbn [items setMergedPdfUrl].
  destruct (Js.filter _ (items st)) as [next|]; [|done].
  by intros [= <-].
Qed.

Lemma PdfMerge_mutate_total (m : Mutation) st :
  Forall defined (items st) -> is_Some (mutate m st).
Proof.
  intros Hdef. destruct m as [token fl|id| |t]; cbn [mutate]; try by eexists.
  unfold removeItem. cbn [items setMergedPdfUrl].
  destruct (filter_total
              (fun x => xid ← Js.prop Item.id x; Some (negb (String.eqb xid id)))
              (items st)) as [next Hnext].
  { by apply prop_defined. }
  rewrite Hnext. by eexists.
Qed.

Lemma PdfMerge_mutate_clears (m : Mutation) st st' :
  mutate m st = Some st' ->
  items st' <> items st \/ (forall t, m <> Drop t) ->
  mergedPdfUrl st' = None.
Proof.
  destruct m as [token fl|id| |t]; cbn [mutate].
  - intros [= <-] _. apply PdfMerge_addFiles_cells.
  - intros Hrm _. by apply PdfMerge_removeItem_cells in Hrm as [? _].
  - by intros [= <-] _.
  - intros [= <-] [Hchanged|Hnot]; [|by destruct (Hnot t)].
    destruct (PdfMerge_onDrop_cells t st) as (_ & Hi & Hu).
    rewrite Hu. rewrite Hi in Hchanged.
    destruct (dragIndexRef st) as [s|]; [|done]. by destruct (s =? t).
Qed.
End MergeMutations.

Section ConvertMutations.
Import JpgToPdf.
Implicit Types (st : State).

Lemma JpgToPdf_addFiles_cells token (fl : list File.t) st :
  let valid := List.filter isValid fl in
  pdfUrl (addFiles token fl st) = None /\
  items (addFiles token fl st) =
    (if (0 <? length fl) && (length valid =? 0) then items st
     else items st ++ map object (imap (newItem token) valid)) /\
  errorMsg (addFiles token fl st) =
    (if (0 <? length fl) && (length valid =? 0)
     then I18n.t "JpgToPdf.invalidFileType" []
     else I18n.empty).
Proof.
  intros valid. unfold addFiles. fold valid.
  by destruct ((0 <? length fl) && (length valid =? 0)).
Qed.

Lemma JpgToPdf_removeItem_cells id st st' :
  removeItem id st = Some st' -> pdfUrl st' = None.
Proof.
  unfold removeItem. cbn [items setPdfUrl].
  destruct (Js.find _ (items st)) as [target|]; [|done].
  cbn [mbind option_bind].
  match goal with |- context [Js.filter ?cb ?l] =>
    destruct (Js.filter cb l) as [next|] eqn:Hnext end; [|done].
  cbn [mbind option_bind]. intros [= <-].
  by destruct target as [[|a]|].
Qed.

Lemma JpgToPdf_clearAll_cells st st' :
  clearAll st = Some st' -> pdfUrl st' = None.
Proof.
  unfold clearAll. cbn [items setPdfUrl setErrorMsg].
  destruct (Js.forEach _ (items st)) as [urls|]; [|done].
  by intros [= <-].
Qed.

Lemma JpgToPdf_mutate_total (m : Mutation) st :
  Forall defined (items st) -> is_Some (mutate m st).
Proof.
  intros Hdef. destruct m as [token fl|id| |t]; cbn [mutate]; try by eexists.
  - unfold removeItem. cbn [items setPdfUrl].
    destruct (find_total
                (fun x => xid ← Js.prop Item.id x; Some (String.eqb xid id))
                (items st)) as [target Htarget].
    { by apply prop_defined. }
    rewrite Htarget. cbn [mbind option_bind].
    destruct (filter_total
                (fun x => xid ← Js.prop Item.id x;
                          Some (negb (String.eqb xid id)))
                (items st)) as [next Hnext].
    { by apply prop_defined. }
    assert (Hsame : forall u,
               items (match target with
                      | Some (object a) =>
                          revokeObjectURL [Item.previewUrl a] u
                      | _ => u
                      end) = items u).
    { intros u. by destruct target as [[|a]|]. }
    rewrite Hsame. cbn [items setPdfUrl]. rewrite Hnext. by eexists.
  - unfold clearAll. cbn [items setPdfUrl setErrorMsg].
    destruct (forEach_total (Js.prop Item.previewUrl) (items st))
      as [urls Hurls].
    { eapply Forall_impl; [exact Hdef|].
      intros [|a] Hx; [by destruct Hx | by eexists]. }
    rewrite Hurls. by eexists.
Qed.

Lemma JpgToPdf_mutate_clears (m : Mutation) st st' :
  mutate m st = Some st' ->
  items st' <> items st \/ (forall t, m <> Drop t) ->
  pdfUrl st' = None.
Proof.
  destruct m as [token fl|id| |t]; cbn [mutate].
  - intros [= <-] _. apply JpgToPdf_addFiles_cells.
  - intros Hrm _. by apply JpgToPdf_removeItem_cells in Hrm.
  - intros Hcl _. by apply JpgToPdf_clearAll_cells in Hcl.
  - intros [= <-] [Hchanged|Hnot]; [|by destruct (Hnot t)].
    destruct (JpgToPdf_onDrop_cells t st) as (_ & Hi & Hu).
    rewrite Hu. rewrite Hi in Hchanged.
    destruct (dragIndexRef st) as [s|]; [|done]. by destruct (s =? t).
Qed.
End ConvertMutations.

(** C3.  In both components, each handler that changes the queue
    ([addFiles], [removeItem], [clearAll], [onDrop]) returns on a queue of
    items, and whenever the queue it leaves differs from the one it found,
    the output handle it leaves is cleared.  [addFiles], [removeItem] and
    [clearAll] clear the handle even when the queue stays as it was. *)
Theorem mutation_clears_output :
  (forall (m : PdfMerge.Mutation) (st : PdfMerge.State),
      (Forall defined (PdfMerge.items st) -> is_Some (PdfMerge.mutate m st)) /\
      (forall st',
          PdfMerge.mutate m st = Some st' ->
          PdfMerge.items st' <> PdfMerge.items st ->
          PdfMerge.mergedPdfUrl st' = None) /\
      (forall st',
          PdfMerge.mutate m st = Some st' ->
          (forall t, m <> PdfMerge.Drop t) ->
          PdfMerge.mergedPdfUrl st' = None)) /\
  (forall (m : JpgToPdf.Mutation) (st : JpgToPdf.State),
      (Forall defined (JpgToPdf.items st) -> is_Some (JpgToPdf.mutate m st)) /\
      (forall st',
          JpgToPdf.mutate m st = Some st' ->
          JpgToPdf.items st' <> JpgToPdf.items st ->
          JpgToPdf.pdfUrl st' = None) /\
      (forall st',
          JpgToPdf.mutate m st = Some st' ->
          (forall t, m <> JpgToPdf.Drop t) ->
          JpgToPdf.pdfUrl st' = None)).
Proof.
  split; intros m st; split_and!.
  - apply PdfMerge_mutate_total.
  - intros st' Hm Hchanged. eapply PdfMerge_mutate_clears; eauto.
  - intros st' Hm Hnot. eapply PdfMerge_mutate_clears; eauto.
  - apply JpgToPdf_mutate_total.
  - intros st' Hm Hchanged. eapply JpgToPdf_mutate_clears; eauto.
  - intros st' Hm Hnot. eapply JpgToPdf_mutate_clears; eauto.
Qed.

Lemma mutation_clears_output_witness :
  let st := PdfMerge.onDragStart 0 Sample.queueABC in
  PdfMerge.mergedPdfUrl st = Some Sample.oldUrl /\
  PdfMerge.mergedPdfUrl (PdfMerge.onDrop 2 st) = None.
Proof.
  intros st. split; [reflexivity|].
  destruct mutation_clears_output as [Hmerge _].
  destruct (Hmerge (PdfMerge.Drop 2) st) as (_ & Hclears & _).
  apply Hclears; [reflexivity|].
  vm_compute. discriminate.
Defined.

(** ** Admission of files *)

Lemma files_of_new_items token (l : list File.t) :
  omap (Js.prop PdfMerge.Item.file) (map object (imap (PdfMerge.newItem token) l))
  = l.
Proof.
  revert token. induction l as [|f l IH]; intros token; [done|].
  cbn [imap map omap list_omap Js.prop PdfMerge.newItem PdfMerge.Item.file].
  f_equal. apply (IH (token ∘ S)).
Qed.

Lemma images_of_new_items token (l : list File.t) :
  omap (Js.prop JpgToPdf.Item.file) (map object (imap (JpgToPdf.newItem token) l))
  = l.
Proof.
  revert token. induction l as [|f l IH]; intros token; [done|].
  cbn [imap map omap list_omap Js.prop JpgToPdf.newItem JpgToPdf.Item.file].
  f_equal. apply (IH (token ∘ S)).
Qed.

(** A batch whose valid files fit into the free slots. *)
Lemma PdfMerge_addFiles_fits token (fl : list File.t) (st : PdfMerge.State) :
  let n := length (PdfMerge.items st) in
  let valid := List.filter PdfMerge.isValid fl in
  let st' := PdfMerge.addFiles token fl st in
  n < 15 -> length valid <= 15 - n ->
  PdfMerge.items st' =
    PdfMerge.items st ++ map object (imap (PdfMerge.newItem token) valid) /\
  omap (Js.prop PdfMerge.Item.file) (PdfMerge.items st') =
    omap (Js.prop PdfMerge.Item.file) (PdfMerge.items st) ++ valid /\
  PdfMerge.errorMsg st' =
    if length valid =? length fl then I18n.empty
    else I18n.t "PdfMerge.invalidFileType" [].
Proof.
  intros n valid st' Hn Hfits.
  destruct (PdfMerge_addFiles_cells token fl st) as (_ & Hi & He).
  fold st' valid n in Hi, He. unfold PdfMerge.MAX_FILES in Hi, He.
  destruct (Z.leb_spec (15 - Z.of_nat n) 0) as [?|_]; [lia|].
  destruct (Z.gtb_spec (Z.of_nat (length valid)) (15 - Z.of_nat n))
    as [?|_]; [lia|].
  replace (Z.to_nat (15 - Z.of_nat n)) with (15 - n) in Hi by lia.
  rewrite take_ge in Hi by lia.
  assert (Hitems : PdfMerge.items st' =
            PdfMerge.items st
              ++ map object (imap (PdfMerge.newItem token) valid)).
  { rewrite Hi. destruct fl as [|f fl]; [|done].
    cbn. by rewrite app_nil_r. }
  split_and!; [exact Hitems | |].
  - by rewrite Hitems, omap_app, files_of_new_items.
  - rewrite He. destruct fl as [|f fl]; [done|]. cbn [length Nat.eqb].
    by destruct (length valid =? S (length fl)).
Qed.

(** C5 fails as stated on the empty batch: with fifteen items queued,
    [addFiles] of no files returns before the capacity check and reports
    nothing. *)
Lemma empty_batch_at_capacity_reports_nothing :
  length (PdfMerge.items Sample.fullQueue) = 15 /\
  Forall (fun f => PdfMerge.isValid f = true) [] /\
  PdfMerge.items (PdfMerge.addFiles Sample.token [] Sample.fullQueue) =
    PdfMerge.items Sample.fullQueue /\
  PdfMerge.errorMsg (PdfMerge.addFiles Sample.token [] Sample.fullQueue) =
    I18n.empty /\
  PdfMerge.errorMsg (PdfMerge.addFiles Sample.token [] Sample.fullQueue) <>
    I18n.t "PdfMerge.maxFilesReached" [("max", 15%Z)].
Proof. vm_compute. split_and!; [done | constructor | done | done | discriminate]. Qed.

(** C5, amended.  With [n] items queued and [valid] the incoming files
    that pass the type check, in input order:
    - an empty batch admits nothing and reports nothing;
    - a batch that is not empty, arriving when [n] is 15 (or more), admits
      nothing and reports that the maximum is reached;
    - when [n < 15] and [valid] has more than [15 - n] files, exactly the
      first [15 - n] of them are appended, in input order, the queue then
      has exactly 15 entries, and "some files ignored" is reported;
    - when [n < 15] and [valid] fits, all of [valid] is appended, in input
      order. *)
Theorem addFiles_capacity token (fl : list File.t) (st : PdfMerge.State) :
  let n := length (PdfMerge.items st) in
  let valid := List.filter PdfMerge.isValid fl in
  let st' := PdfMerge.addFiles token fl st in
  let filesOf := omap (Js.prop PdfMerge.Item.file) in
  (fl = [] ->
   PdfMerge.items st' = PdfMerge.items st /\
   PdfMerge.errorMsg st' = I18n.empty) /\
  (fl <> [] -> 15 <= n ->
   PdfMerge.items st' = PdfMerge.items st /\
   PdfMerge.errorMsg st' = I18n.t "PdfMerge.maxFilesReached" [("max", 15%Z)]) /\
  (n < 15 -> 15 - n < length valid ->
   PdfMerge.items st' =
     PdfMerge.items st
       ++ map object (imap (PdfMerge.newItem token) (take (15 - n) valid)) /\
   filesOf (PdfMerge.items st') =
     filesOf (PdfMerge.items st) ++ take (15 - n) valid /\
   length (PdfMerge.items st') = 15 /\
   PdfMerge.errorMsg st' =
     I18n.t "PdfMerge.someFilesIgnored" [("max", 15%Z)]) /\
  (n < 15 -> length valid <= 15 - n ->
   PdfMerge.items st' =
     PdfMerge.items st ++ map object (imap (PdfMerge.newItem token) valid) /\
   filesOf (PdfMerge.items st') = filesOf (PdfMerge.items st) ++ valid /\
   PdfMerge.errorMsg st' =
     if length valid =? length fl then I18n.empty
     else I18n.t "PdfMerge.invalidFileType" []).
Proof.
  intros n valid st' filesOf.
  destruct (PdfMerge_addFiles_cells token fl st) as (_ & Hi & He).
  fold st' valid n in Hi, He. unfold PdfMerge.MAX_FILES in Hi, He.
  split_and!.
  - intros ->. by rewrite Hi, He.
  - intros Hfl Hn. rewrite Hi, He.
    destruct fl as [|f fl]; [done|]. cbn [length Nat.eqb orb].
    destruct (Z.leb_spec (15 - Z.of_nat n) 0) as [_|?]; [done | lia].
  - intros Hn Hover.
    assert (Hfl : (length fl =? 0) = false).
    { destruct fl as [|f fl]; [cbn in Hover; lia | done]. }
    rewrite Hfl in Hi, He. cbn [orb] in Hi.
    destruct (Z.leb_spec (15 - Z.of_nat n) 0) as [?|_]; [lia|].
    replace (Z.to_nat (15 - Z.of_nat n)) with (15 - n) in Hi by lia.
    destruct (Z.gtb_spec (Z.of_nat (length valid)) (15 - Z.of_nat n))
      as [_|?]; [|lia].
    split_and!; try done.
    + unfold filesOf. by rewrite Hi, omap_app, files_of_new_items.
    + rewrite Hi, length_app, length_map, length_imap, length_take.
      fold n. lia.
  - intros Hn Hfits. by apply PdfMerge_addFiles_fits.
Qed.

Lemma addFiles_capacity_witness :
  let st := PdfMerge.addFiles Sample.token (replicate 14 Sample.fileA)
                              PdfMerge.mount in
  let st' := PdfMerge.addFiles Sample.token
               [Sample.fileB; Sample.notes; Sample.fileC] st in
  omap (Js.prop PdfMerge.Item.file) (PdfMerge.items st') =
    replicate 14 Sample.fileA ++ [Sample.fileB] /\
  length (PdfMerge.items st') = 15 /\
  PdfMerge.errorMsg st' = I18n.t "PdfMerge.someFilesIgnored" [("max", 15%Z)].
Proof.
  intros st st'.
  destruct (addFiles_capacity Sample.token
              [Sample.fileB; Sample.notes; Sample.fileC] st)
    as (_ & _ & Hover & _).
  destruct Hover as (_ & Hfiles & Hlen & Herr);
    [vm_compute; lia | vm_compute; lia |].
  split_and!; [exact Hfiles | exact Hlen | exact Herr].
Defined.

(** C9 fails as stated on a full queue: a batch of one PDF and one text
    file leaves the fifteen items as they are, and what is reported is
    that the maximum is reached, not the invalid type. *)
Lemma mixed_batch_at_capacity_admits_nothing :
  let fl := [Sample.fileB; Sample.notes] in
  let st' := PdfMerge.addFiles Sample.token fl Sample.fullQueue in
  List.filter PdfMerge.isValid fl = [Sample.fileB] /\
  PdfMerge.items st' = PdfMerge.items Sample.fullQueue /\
  PdfMerge.items st' <>
    PdfMerge.items Sample.fullQueue
      ++ map object (imap (PdfMerge.newItem Sample.token)
                          (List.filter PdfMerge.isValid fl)) /\
  PdfMerge.errorMsg st' <> I18n.t "PdfMerge.invalidFileType" [].
Proof. vm_compute. split_and!; [done | done | discriminate | discriminate]. Qed.

(** C9, amended.  For a batch [fl] with [valid] the files that pass the
    tool's type check, in input order:
    - PdfMerge, when [fl] has both files that pass and files that do not
      and [valid] fits into the free slots of the queue, appends all of
      [valid] and reports the invalid type;
    - JpgToPdf leaves the queue as it is exactly when no file passes, and
      then, for a batch that is not empty, reports the invalid type; when
      at least one passes it appends all of [valid] and reports nothing. *)
Theorem addFiles_mixed_batch token (fl : list File.t) :
  (forall st : PdfMerge.State,
      let valid := List.filter PdfMerge.isValid fl in
      let st' := PdfMerge.addFiles token fl st in
      valid <> [] -> length valid <> length fl ->
      length (PdfMerge.items st) + length valid <= 15 ->
      PdfMerge.items st' =
        PdfMerge.items st ++ map object (imap (PdfMerge.newItem token) valid) /\
      omap (Js.prop PdfMerge.Item.file) (PdfMerge.items st') =
        omap (Js.prop PdfMerge.Item.file) (PdfMerge.items st) ++ valid /\
      PdfMerge.errorMsg st' = I18n.t "PdfMerge.invalidFileType" []) /\
  (forall st : JpgToPdf.State,
      let valid := List.filter JpgToPdf.isValid fl in
      let st' := JpgToPdf.addFiles token fl st in
      (JpgToPdf.items st' = JpgToPdf.items st <-> valid = []) /\
      (fl <> [] -> valid = [] ->
       JpgToPdf.errorMsg st' = I18n.t "JpgToPdf.invalidFileType" []) /\
      (valid <> [] ->
       JpgToPdf.items st' =
         JpgToPdf.items st
           ++ map object (imap (JpgToPdf.newItem token) valid) /\
       omap (Js.prop JpgToPdf.Item.file) (JpgToPdf.items st') =
         omap (Js.prop JpgToPdf.Item.file) (JpgToPdf.items st) ++ valid /\
       JpgToPdf.errorMsg st' = I18n.empty)).
Proof.
  split; intros st valid st'.
  - intros Hsome Hmixed Hfits.
    pose proof (PdfMerge_addFiles_fits token fl st) as Hall.
    cbv zeta in Hall. fold valid st' in Hall. clearbody valid st'.
    assert (Hn : length (PdfMerge.items st) < 15).
    { destruct valid; [done | cbn in Hfits; lia]. }
    destruct (Hall Hn) as (Hi & Hf & He); [lia|].
    split_and!; [exact Hi | exact Hf |].
    rewrite He. by destruct (Nat.eqb_spec (length valid) (length fl)).
  - destruct (JpgToPdf_addFiles_cells token fl st) as (_ & Hi & He).
    fold valid st' in Hi, He. clearbody valid st'.
    assert (Hitems : valid <> [] ->
              JpgToPdf.items st' =
                JpgToPdf.items st
                  ++ map object (imap (JpgToPdf.newItem token) valid)).
    { intros Hsome. rewrite Hi.
      destruct valid; [done|]. cbn [length Nat.eqb]. by rewrite andb_false_r. }
    split_and!.
    + split.
      * intros Hsame. destruct valid as [|f rest]; [done|].
        rewrite Hitems in Hsame by done.
        apply (f_equal length) in Hsame.
        rewrite length_app in Hsame. cbn in Hsame. lia.
      * intros Hnone. rewrite Hi, Hnone. cbn [length Nat.eqb imap map].
        rewrite andb_true_r. destruct (0 <? length fl); [done|].
        apply app_nil_r.
    + intros Hfl Hnone. rewrite He, Hnone.
      by destruct fl.
    + intros Hsome. split_and!; [by apply Hitems | |].
      * by rewrite (Hitems Hsome), omap_app, images_of_new_items.
      * rewrite He. destruct valid; [done|]. cbn [length Nat.eqb].
        by rewrite andb_false_r.
Qed.

Lemma addFiles_mixed_batch_witness :
  let fl := [Sample.fileB; Sample.notes; Sample.icon] in
  omap (Js.prop PdfMerge.Item.file)
       (PdfMerge.items (PdfMerge.addFiles Sample.token fl Sample.queueAB)) =
    [Sample.fileA; Sample.fileB; Sample.fileB] /\
  PdfMerge.errorMsg (PdfMerge.addFiles Sample.token fl Sample.queueAB) =
    I18n.t "PdfMerge.invalidFileType" [] /\
  omap (Js.prop JpgToPdf.Item.file)
       (JpgToPdf.items (JpgToPdf.addFiles Sample.token fl Sample.gallery)) =
    [Sample.photo; Sample.icon; Sample.dot; Sample.icon] /\
  JpgToPdf.errorMsg
    (JpgToPdf.addFiles Sample.token [Sample.fileB; Sample.notes] Sample.gallery) =
    I18n.t "JpgToPdf.invalidFileType" [].
Proof.
  intros fl.
  destruct (addFiles_mixed_batch Sample.token fl) as [Hmerge Hconvert].
  destruct (Hmerge Sample.queueAB) as (_ & Hf & He);
    [vm_compute; discriminate | vm_compute; lia | vm_compute; lia |].
  destruct (Hconvert Sample.gallery) as (_ & _ & Hsome).
  destruct Hsome as (_ & Hf' & _); [vm_compute; discriminate|].
  destruct (addFiles_mixed_batch Sample.token [Sample.fileB; Sample.notes])
    as [_ Hreject].
  destruct (Hreject Sample.gallery) as (_ & Hnone & _).
  split_and!; [exact Hf | exact He | exact Hf' |].
  apply Hnone; [discriminate | reflexivity].
Defined.

(** * Further properties of the two components *)

(** ** Runs: the length check, the controls, the cells a run leaves alone *)

Lemma mergePdfs_short_queue {Lib : PdfMerge.PdfLib} (st : PdfMerge.State) :
  length (PdfMerge.items st) < 2 ->
  PdfMerge.mergePdfs st =
    ([], PdfMerge.setErrorMsg (I18n.t "PdfMerge.needAtLeastTwo" [])
           (PdfMerge.setMergedPdfUrl None
              (PdfMerge.setErrorMsg I18n.empty st))).
Proof.
  intros Hlen. unfold PdfMerge.mergePdfs.
  cbn [PdfMerge.items PdfMerge.setErrorMsg PdfMerge.setMergedPdfUrl].
  by destruct (Nat.ltb_spec (length (PdfMerge.items st)) 2) as [_|?]; [|lia].
Qed.

(** X1.  Below the minimum length neither run starts: with fewer than two
    items [mergePdfs] reads no file, sends no progress update and leaves
    the progress counter and the busy flag as they were; with an empty
    queue [convertToPdf] reads nothing either.  Both clear the output
    handle and report the tool's own validation message, and the queue
    stays as it was.  [mergePdfs] reads nothing exactly in this case. *)
Theorem short_queue_is_rejected_before_any_read :
  (forall (Lib : PdfMerge.PdfLib) (st : PdfMerge.State),
      (length (PdfMerge.items st) < 2 ->
       (PdfMerge.mergePdfs st).1 = [] /\
       PdfMerge.errorMsg (PdfMerge.mergePdfs st).2 =
         I18n.t "PdfMerge.needAtLeastTwo" [] /\
       PdfMerge.mergedPdfUrl (PdfMerge.mergePdfs st).2 = None /\
       PdfMerge.items (PdfMerge.mergePdfs st).2 = PdfMerge.items st /\
       PdfMerge.progress (PdfMerge.mergePdfs st).2 = PdfMerge.progress st /\
       PdfMerge.isMerging (PdfMerge.mergePdfs st).2 = PdfMerge.isMerging st) /\
      ((PdfMerge.mergePdfs st).1 = [] -> length (PdfMerge.items st) < 2)) /\
  (forall (B : JpgToPdf.Browser) (st : JpgToPdf.State),
      JpgToPdf.items st = [] ->
      (JpgToPdf.convertToPdf st).1 = [] /\
      JpgToPdf.errorMsg (JpgToPdf.convertToPdf st).2 =
        I18n.t "JpgToPdf.noImagesError" [] /\
      JpgToPdf.pdfUrl (JpgToPdf.convertToPdf st).2 = None /\
      JpgToPdf.items (JpgToPdf.convertToPdf st).2 = JpgToPdf.items st /\
      JpgToPdf.isConverting (JpgToPdf.convertToPdf st).2 =
        JpgToPdf.isConverting st).
Proof.
  split.
  - intros Lib st. split.
    + intros Hlen. by rewrite (mergePdfs_short_queue st Hlen).
    + intros Hnone. destruct (Nat.lt_ge_cases (length (PdfMerge.items st)) 2)
        as [?|Hlen]; [done|].
      destruct (PdfMerge.mergeLoop (length (PdfMerge.items st)) 0
                  (PdfMerge.items st) PdfMerge.create) as [evs r] eqn:Hloop.
      destruct (mergePdfs_run st _ _ Hlen Hloop) as (Hev & _).
      by rewrite Hev in Hnone.
  - intros B st Hempty. unfold JpgToPdf.convertToPdf.
    cbn [JpgToPdf.items JpgToPdf.setErrorMsg JpgToPdf.setPdfUrl].
    by rewrite Hempty.
Qed.

Lemma short_queue_is_rejected_before_any_read_witness :
  (PdfMerge.mergePdfs (Lib := Sample.lib)
     (Sample.withItems [Sample.itemOf 0 Sample.fileA])).1 = [] /\
  (JpgToPdf.convertToPdf (B := Sample.browser) (Sample.withImages [])).1 = [].
Proof.
  destruct short_queue_is_rejected_before_any_read as [Hmerge Hconvert].
  destruct (Hmerge Sample.lib (Sample.withItems [Sample.itemOf 0 Sample.fileA]))
    as [Hshort _].
  destruct Hshort as (Hev & _); [vm_compute; lia|].
  destruct (Hconvert Sample.browser (Sample.withImages [])) as (Hev' & _);
    [reflexivity|].
  split; [exact Hev | exact Hev'].
Defined.

(** A run changes neither the queue nor the recorded drag. *)
Lemma mergePdfs_keeps_queue {Lib : PdfMerge.PdfLib} (st : PdfMerge.State) :
  PdfMerge.items (PdfMerge.mergePdfs st).2 = PdfMerge.items st /\
  PdfMerge.dragIndexRef (PdfMerge.mergePdfs st).2 = PdfMerge.dragIndexRef st.
Proof.
  destruct (Nat.lt_ge_cases (length (PdfMerge.items st)) 2) as [Hlen|Hlen].
  - by rewrite (mergePdfs_short_queue st Hlen).
  - unfold PdfMerge.mergePdfs.
    cbn [PdfMerge.items PdfMerge.setErrorMsg PdfMerge.setMergedPdfUrl
         PdfMerge.setIsMerging PdfMerge.setProgress].
    destruct (Nat.ltb_spec (length (PdfMerge.items st)) 2) as [?|_]; [lia|].
    destruct (PdfMerge.mergeLoop _ _ _ _) as [evs r].
    match goal with |- context [foldl PdfMerge.observe ?s evs] =>
      destruct (observe_fold evs s) as (Hi & _ & _ & _ & Hd & _)
    end.
    destruct (r ≫= _); cbn; by rewrite ?Hi, ?Hd.
Qed.

Lemma convertToPdf_keeps_queue {B : JpgToPdf.Browser} (st : JpgToPdf.State) :
  JpgToPdf.items (JpgToPdf.convertToPdf st).2 = JpgToPdf.items st /\
  JpgToPdf.dragIndexRef (JpgToPdf.convertToPdf st).2 =
    JpgToPdf.dragIndexRef st /\
  JpgToPdf.revoked (JpgToPdf.convertToPdf st).2 = JpgToPdf.revoked st.
Proof.
  unfold JpgToPdf.convertToPdf.
  cbn [JpgToPdf.items JpgToPdf.setErrorMsg JpgToPdf.setPdfUrl
       JpgToPdf.setIsConverting].
  destruct (length (JpgToPdf.items st) =? 0); [done|].
  destruct (JpgToPdf.convertLoop _ _) as [evs r].
  by destruct (r ≫= _).
Qed.

(** X2.  Whatever happens in a run (rejected by the length check, failed
    or completed), it leaves the queue and the recorded drag index as they
    were, and [convertToPdf] revokes no preview URL. *)
Theorem runs_keep_the_queue :
  (forall (Lib : PdfMerge.PdfLib) (st : PdfMerge.State),
      PdfMerge.items (PdfMerge.mergePdfs st).2 = PdfMerge.items st /\
      PdfMerge.dragIndexRef (PdfMerge.mergePdfs st).2 =
        PdfMerge.dragIndexRef st) /\
  (forall (B : JpgToPdf.Browser) (st : JpgToPdf.State),
      JpgToPdf.items (JpgToPdf.convertToPdf st).2 = JpgToPdf.items st /\
      JpgToPdf.dragIndexRef (JpgToPdf.convertToPdf st).2 =
        JpgToPdf.dragIndexRef st /\
      JpgToPdf.revoked (JpgToPdf.convertToPdf st).2 = JpgToPdf.revoked st).
Proof.
  split.
  - intros Lib st. apply mergePdfs_keeps_queue.
  - intros B st. apply convertToPdf_keeps_queue.
Qed.

(** X3.  The trigger buttons and the handlers agree.  When the merge
    button is enabled, [mergePdfs] gets past its length check: its first
    act is the initial progress update, it does not report the
    "at least two" message, and it ends with the busy flag off and the
    queue as long as before, so that the button is enabled again.  In the
    same way, when the convert button is enabled, [convertToPdf] does not
    report the "no images" message and leaves the button enabled. *)
Theorem enabled_trigger_starts_a_run :
  (forall (Lib : PdfMerge.PdfLib) (st : PdfMerge.State),
      PdfMerge.mergeDisabled st = false ->
      let st' := (PdfMerge.mergePdfs st).2 in
      (exists evs,
          (PdfMerge.mergePdfs st).1 =
            PdfMerge.SetProgress
              {| PdfMerge.current := 0;
                 PdfMerge.total := length (PdfMerge.items st) |} :: evs) /\
      PdfMerge.errorMsg st' <> I18n.t "PdfMerge.needAtLeastTwo" [] /\
      PdfMerge.isMerging st' = false /\
      PdfMerge.mergeDisabled st' = false) /\
  (forall (B : JpgToPdf.Browser) (st : JpgToPdf.State),
      JpgToPdf.convertDisabled st = false ->
      let st' := (JpgToPdf.convertToPdf st).2 in
      JpgToPdf.errorMsg st' <> I18n.t "JpgToPdf.noImagesError" [] /\
      JpgToPdf.isConverting st' = false /\
      JpgToPdf.convertDisabled st' = false).
Proof.
  split.
  - intros Lib st Hen st'. unfold PdfMerge.mergeDisabled in Hen.
    apply orb_false_elim in Hen as [Hlen Hbusy].
    apply Nat.ltb_ge in Hlen.
    destruct (PdfMerge.mergeLoop (length (PdfMerge.items st)) 0
                (PdfMerge.items st) PdfMerge.create) as [evs r] eqn:Hloop.
    destruct (mergePdfs_run st _ _ Hlen Hloop) as (Hev & Hi & Hm & Hu & He & _).
    fold st' in Hi, Hm, Hu, He.
    split_and!.
    + by exists evs.
    + rewrite He. by destruct (r ≫= _).
    + exact Hm.
    + unfold PdfMerge.mergeDisabled. rewrite Hi, Hm.
      by destruct (Nat.ltb_spec (length (PdfMerge.items st)) 2) as [?|_]; [lia|].
  - intros B st Hen st'. unfold JpgToPdf.convertDisabled in Hen.
    apply orb_false_elim in Hen as [Hlen Hbusy].
    apply Nat.eqb_neq in Hlen.
    assert (Hne : JpgToPdf.items st <> []) by (by destruct (JpgToPdf.items st)).
    destruct (JpgToPdf.convertLoop (JpgToPdf.items st) None)
      as [evs r] eqn:Hloop.
    destruct (convertToPdf_run st _ _ Hne Hloop) as (_ & Hi & Hm & Hu & He).
    fold st' in Hi, Hm, Hu, He.
    split_and!.
    + rewrite He. by destruct (r ≫= _).
    + exact Hm.
    + unfold JpgToPdf.convertDisabled. rewrite Hi, Hm.
      by destruct (JpgToPdf.items st).
Qed.

Lemma enabled_trigger_starts_a_run_witness :
  PdfMerge.mergeDisabled
    (PdfMerge.mergePdfs (Lib := Sample.lib) Sample.queueAxB).2 = false /\
  JpgToPdf.convertDisabled
    (JpgToPdf.convertToPdf (B := Sample.browser) Sample.gallery).2 = false.
Proof.
  destruct enabled_trigger_starts_a_run as [Hmerge Hconvert].
  destruct (Hmerge Sample.lib Sample.queueAxB) as (_ & _ & _ & Hen);
    [reflexivity|].
  destruct (Hconvert Sample.browser Sample.gallery) as (_ & _ & Hen');
    [reflexivity|].
  split; [exact Hen | exact Hen'].
Defined.

(** ** Runs: where the progress counter stops, and the last step *)

Section MergeOutcomes.
Context {Lib : PdfMerge.PdfLib}.
Import PdfMerge.
Implicit Types (st : State) (docs : list (PDFDocument Page)).

Lemma progressOf_reads (it : jsval Item.t) : progressOf (reads it) = [].
Proof. by destruct it. Qed.

Lemma progressOf_app (evs evs' : list Event) :
  progressOf (evs ++ evs') = progressOf evs ++ progressOf evs'.
Proof. apply omap_app. Qed.

Lemma filesRead_app (evs evs' : list Event) :
  filesRead (evs ++ evs') = filesRead evs ++ filesRead evs'.
Proof. apply omap_app. Qed.

Lemma filesRead_reads (it : jsval Item.t) :
  filesRead (reads it) = omap (Js.prop Item.file) [it].
Proof. by destruct it. Qed.

Lemma last_progress_of_turns len (l : list (jsval Item.t)) p0 :
  default p0 (last ((fun c => {| current := c; total := len |})
                      <$> seq 1 (length l))) =
  if length l =? 0 then p0 else {| current := length l; total := len |}.
Proof.
  destruct l as [|x l _] using rev_ind; [done|].
  rewrite length_app. cbn [length]. rewrite Nat.add_1_r, seq_S.
  by rewrite fmap_last, last_snoc.
Qed.

(** X4.  When a merge run fails at an item, the progress counter stays at
    the number of items that were merged before it: with the failing item
    at position [k] (counted from 0), the counter reads [k] of [n] after
    the run, and exactly the first [k + 1] files were read. *)
Theorem failed_merge_keeps_progress st (pre post : list (jsval Item.t))
        (it : jsval Item.t) docs :
  2 <= length (items st) ->
  items st = pre ++ it :: post ->
  Forall2 (fun x d => decode x = Some d) pre docs ->
  decode it = None ->
  progress (mergePdfs st).2 =
    {| current := length pre; total := length (items st) |} /\
  filesRead (mergePdfs st).1 = omap (Js.prop Item.file) (pre ++ [it]) /\
  progressOf (mergePdfs st).1 =
    (fun c => {| current := c; total := length (items st) |})
      <$> seq 0 (S (length pre)).
Proof.
  intros Hlen Hl Hpre Hit.
  pose proof (mergeLoop_aborts (length (items st)) pre post it docs Hpre Hit
                               0 create) as Hloop.
  rewrite <- Hl in Hloop.
  destruct (mergePdfs_run st _ _ Hlen Hloop) as (Hev & _ & _ & _ & _ & Hp).
  pose proof (progressOf_turns (length (items st)) pre 0) as Hturns.
  pose proof (filesRead_turns (length (items st)) pre 0) as Hfiles.
  split_and!.
  - rewrite Hp, progressOf_app, progressOf_reads, app_nil_r, Hturns.
    rewrite last_progress_of_turns. by destruct pre.
  - rewrite Hev.
    change (filesRead (SetProgress ?p :: ?evs)) with (filesRead evs).
    by rewrite filesRead_app, Hfiles, filesRead_reads, omap_app.
  - rewrite Hev.
    change (progressOf (SetProgress ?p :: ?evs)) with (p :: progressOf evs).
    by rewrite progressOf_app, progressOf_reads, app_nil_r, Hturns.
Qed.

End MergeOutcomes.

Lemma failed_merge_keeps_progress_witness :
  PdfMerge.progress
    (PdfMerge.mergePdfs (Lib := Sample.lib) Sample.queueAxB).2 =
  {| PdfMerge.current := 1; PdfMerge.total := 3 |}.
Proof.
  refine (proj1 (failed_merge_keeps_progress (Lib := Sample.lib)
                   Sample.queueAxB
                   [Sample.itemOf 0 Sample.fileA]
                   [Sample.itemOf 2 Sample.fileB]
                   (Sample.itemOf 1 Sample.broken)
                   [Sample.docA] _ _ _ _)).
  - vm_compute; lia.
  - reflexivity.
  - repeat constructor.
  - reflexivity.
Defined.


(** X5.  The last step of a merge run can fail as well: when every item
    reads and parses but saving the merged document is rejected, all files
    have been read and the counter stands at [n] of [n], yet no handle is
    published and the generic failure message is reported. *)
Theorem rejected_save_publishes_nothing {Lib : PdfMerge.PdfLib}
        (st : PdfMerge.State) (docs : list (PdfMerge.PDFDocument PdfMerge.Page)) :
  2 <= length (PdfMerge.items st) ->
  Forall2 (fun it d => PdfMerge.decode it = Some d) (PdfMerge.items st) docs ->
  PdfMerge.save
    {| PdfMerge.getPages := concat (PdfMerge.getPages <$> docs) |} = None ->
  PdfMerge.mergedPdfUrl (PdfMerge.mergePdfs st).2 = None /\
  PdfMerge.errorMsg (PdfMerge.mergePdfs st).2 =
    I18n.t "PdfMerge.mergeFailed" [] /\
  PdfMerge.isMerging (PdfMerge.mergePdfs st).2 = false /\
  PdfMerge.filesRead (PdfMerge.mergePdfs st).1 =
    omap (Js.prop PdfMerge.Item.file) (PdfMerge.items st) /\
  PdfMerge.progress (PdfMerge.mergePdfs st).2 =
    {| PdfMerge.current := length (PdfMerge.items st);
       PdfMerge.total := length (PdfMerge.items st) |}.
Proof.
  intros Hlen Hdocs Hsave.
  pose proof (mergeLoop_completes (length (PdfMerge.items st)) _ _ Hdocs
                                  0 PdfMerge.create) as Hloop.
  cbn [PdfMerge.create PdfMerge.getPages app] in Hloop.
  destruct (mergePdfs_run st _ _ Hlen Hloop) as (Hev & _ & Hm & Hu & He & Hp).
  cbn [mbind option_bind] in Hu, He. rewrite Hsave in Hu, He.
  split_and!; try done.
  - rewrite Hev. apply filesRead_run.
  - rewrite Hp.
    rewrite (progressOf_turns (length (PdfMerge.items st))
                              (PdfMerge.items st) 0).
    rewrite last_progress_of_turns.
    destruct (PdfMerge.items st); [cbn in Hlen; lia | done].
Qed.

(** The sample library with a [save] that is always rejected. *)
Lemma rejected_save_publishes_nothing_witness :
  let lib :=
    {| PdfMerge.Page := string;
       PdfMerge.arrayBuffer := PdfMerge.arrayBuffer (PdfLib := Sample.lib);
       PdfMerge.load := PdfMerge.load (PdfLib := Sample.lib);
       PdfMerge.save := fun _ => None |} in
  PdfMerge.mergedPdfUrl (PdfMerge.mergePdfs (Lib := lib) Sample.queueAB).2
    = None /\
  PdfMerge.progress (PdfMerge.mergePdfs (Lib := lib) Sample.queueAB).2 =
    {| PdfMerge.current := 2; PdfMerge.total := 2 |}.
Proof.
  intros lib.
  destruct (rejected_save_publishes_nothing (Lib := lib) Sample.queueAB
              [Sample.docA; Sample.docB]) as (Hu & _ & _ & _ & Hp).
  - vm_compute; lia.
  - repeat constructor.
  - reflexivity.
  - split; [exact Hu | exact Hp].
Defined.

Section ConvertOutcomes.
Context {B : JpgToPdf.Browser}.
Import JpgToPdf.

Lemma placeImage_unit (file : File.t) (dataUrl : DataUrl) (img : Image)
      (pdf : option jsPDF) :
  (forall p, pdf = Some p -> pdfUnit p = "pt") ->
  pdfUnit (placeImage file dataUrl img pdf) = "pt".
Proof.
  intros Hunit. unfold placeImage, addImage. cbn [pdfUnit].
  destruct pdf as [p|]; [|done]. cbn [addPage pdfUnit]. by apply Hunit.
Qed.

Lemma convertLoop_unit (rest : list (jsval Item.t)) (pdf : option jsPDF) evs r :
  (forall p, pdf = Some p -> pdfUnit p = "pt") ->
  convertLoop rest pdf = (evs, Some (Some r)) ->
  pdfUnit r = "pt".
Proof.
  revert pdf evs. induction rest as [|it rest IH]; intros pdf evs Hunit.
  - cbn. intros [= _ ->]. by apply Hunit.
  - cbn [convertLoop]. rewrite convertItem_decode.
    destruct (decode it) as [x|]; [|done]. cbn [mbind option_bind].
    destruct (convertLoop rest _) as [evs' r'] eqn:Hloop.
    intros [= _ ->]. eapply IH; [|exact Hloop].
    intros p [= <-]. by apply placeImage_unit.
Qed.

Lemma pageSize_within_limit (w h : N) (orientation : string)
      (images : list Placement) :
  (w <= 19200)%N -> (h <= 19200)%N ->
  let pg := {| pageFormat := (pagePt w, pagePt h);
               pageOrientation := orientation; pageImages := images |} in
  ((pageSize pg).1 == (pageFormat pg).1)%Q /\
  ((pageSize pg).2 == (pageFormat pg).2)%Q.
Proof.
  intros Hw Hh pg. unfold pageSize. cbn [pageFormat pg fst snd].
  split; by apply pagePt_within_limit.
Qed.

(** X6.  When every queued image reads and decodes (and the jsPDF calls
    return, as they are taken to), the document that [convertToPdf]
    builds and publishes is, in points, the result of one
    page request per queue item, in queue order: each with the format and
    orientation computed for its image, and carrying that image alone,
    placed at the origin with the width and height of that format.  When
    no image has a side of more than 19200 pixels, every page produced has
    exactly the size of the format passed for it. *)
Theorem convertToPdf_one_page_per_item (st : State)
        (xs : list (File.t * DataUrl * Image)) :
  items st <> [] ->
  Forall2 (fun it x => decode it = Some x) (items st) xs ->
  exists pdf,
    pdfUrl (convertToPdf st).2 = Some (createObjectURL (inr (output pdf))) /\
    pdfUnit pdf = "pt" /\
    length (pdfPages pdf) = length (items st) /\
    pdfPages pdf =
      (fun x =>
         {| pageFormat := (pagePt (naturalWidth x.2), pagePt (naturalHeight x.2));
            pageOrientation :=
              orientationOf (pagePt (naturalWidth x.2))
                            (pagePt (naturalHeight x.2));
            pageImages :=
              [{| imageData := x.1.2;
                  imageFormat :=
                    if String.eqb (File.type x.1.1) "image/jpeg"
                       || String.eqb (File.type x.1.1) "image/jpg"
                    then "JPEG" else "PNG";
                  imageX := 0; imageY := 0;
                  imageWidth := pagePt (naturalWidth x.2);
                  imageHeight := pagePt (naturalHeight x.2) |}] |}) <$> xs /\
    (Forall (fun x => (naturalWidth x.2 <= 19200)%N /\
                      (naturalHeight x.2 <= 19200)%N) xs ->
     Forall (fun pg => ((pageSize pg).1 == (pageFormat pg).1)%Q /\
                       ((pageSize pg).2 == (pageFormat pg).2)%Q)
            (pdfPages pdf)).
Proof.
  intros Hne Hxs.
  destruct (convertLoop_completes _ _ Hxs None) as (r & Hloop & Hpages & Hsome).
  destruct (Hsome Hne) as [pdf ->].
  destruct (convertToPdf_run st _ _ Hne Hloop) as (_ & _ & _ & Hu & _).
  exists pdf. cbn [pagesOf app] in Hpages.
  split_and!; [exact Hu | | | exact Hpages |].
  - eapply convertLoop_unit; [|exact Hloop]. by intros p [=].
  - rewrite Hpages, length_fmap. symmetry. by eapply Forall2_length.
  - intros Hsmall. rewrite Hpages. apply Forall_fmap.
    eapply Forall_impl; [exact Hsmall|].
    intros x [Hw Hh]. by apply pageSize_within_limit.
Qed.

End ConvertOutcomes.

Lemma convertToPdf_one_page_per_item_witness :
  exists pdf,
    JpgToPdf.pdfUrl
      (JpgToPdf.convertToPdf (B := Sample.browser) Sample.gallery).2 =
      Some (JpgToPdf.createObjectURL (inr (JpgToPdf.output pdf))) /\
    JpgToPdf.pageFormat <$> JpgToPdf.pdfPages pdf =
      [(JpgToPdf.pagePt 800, JpgToPdf.pagePt 600);
       (JpgToPdf.pagePt 16, JpgToPdf.pagePt 32);
       (JpgToPdf.pagePt 1, JpgToPdf.pagePt 1)].
Proof.
  destruct (convertToPdf_one_page_per_item (B := Sample.browser) Sample.gallery
              [ (Sample.photo, "photo.jpg",
                 {| JpgToPdf.naturalWidth := 800;
                    JpgToPdf.naturalHeight := 600 |});
                (Sample.icon, "icon.png",
                 {| JpgToPdf.naturalWidth := 16;
                    JpgToPdf.naturalHeight := 32 |});
                (Sample.dot, "dot.png",
                 {| JpgToPdf.naturalWidth := 1;
                    JpgToPdf.naturalHeight := 1 |}) ])
    as (pdf & Hu & _ & _ & Hpages & _).
  - discriminate.
  - repeat constructor.
  - exists pdf. split; [exact Hu|]. rewrite Hpages. reflexivity.
Defined.

(** ** The queue under removal and clearing *)

Section ObjectArrays.
Context {A B : Type}.
Implicit Types (its : list A) (get : A -> B).

Lemma filter_objects get (p : B -> bool) its :
  Js.filter (fun x => y ← Js.prop get x; Some (p y)) (map object its) =
  Some (map object (List.filter (fun a => p (get a)) its)).
Proof.
  induction its as [|a its IH]; [done|].
  cbn [map Js.filter Js.prop mbind option_bind List.filter].
  rewrite IH. cbn [mbind option_bind]. by destruct (p (get a)).
Qed.

Lemma find_objects get (p : B -> bool) its :
  Js.find (fun x => y ← Js.prop get x; Some (p y)) (map object its) =
  Some (object <$> List.find (fun a => p (get a)) its).
Proof.
  induction its as [|a its IH]; [done|].
  cbn [map Js.find Js.prop mbind option_bind List.find].
  by destruct (p (get a)).
Qed.

Lemma forEach_objects get its :
  Js.forEach (Js.prop get) (map object its) = Some (map get its).
Proof.
  induction its as [|a its IH]; [done|].
  cbn [map Js.forEach Js.prop mbind option_bind]. by rewrite IH.
Qed.

(** An [undefined] element makes the callbacks that read a property
    throw. *)
Lemma filter_undefined get (p : B -> bool) (l : list (jsval A)) :
  undefined ∈ l ->
  Js.filter (fun x => y ← Js.prop get x; Some (p y)) l = None.
Proof.
  induction l as [|x l IH]; intros Hin; [by apply elem_of_nil in Hin|].
  apply elem_of_cons in Hin as [<-|Hin]; [done|].
  cbn [Js.filter]. rewrite (IH Hin).
  by destruct (Js.prop get x ≫= _).
Qed.

Lemma forEach_undefined get (l : list (jsval A)) :
  undefined ∈ l -> Js.forEach (Js.prop get) l = None.
Proof.
  induction l as [|x l IH]; intros Hin; [by apply elem_of_nil in Hin|].
  apply elem_of_cons in Hin as [<-|Hin]; [done|].
  cbn [Js.forEach]. rewrite (IH Hin). by destruct (Js.prop get x).
Qed.

Lemma filter_shorter (cb : jsval A -> option bool) (l r : list (jsval A)) :
  Js.filter cb l = Some r -> length r <= length l.
Proof.
  revert r. induction l as [|x l IH]; intros r.
  - by intros [= <-].
  - cbn [Js.filter]. destruct (cb x) as [keep|]; [|done].
    cbn [mbind option_bind].
    destruct (Js.filter cb l) as [r'|]; [|done]. cbn [mbind option_bind].
    intros [= <-]. specialize (IH r' eq_refl).
    destruct keep; cbn [length]; lia.
Qed.
End ObjectArrays.

Lemma filter_keeps_all {A : Type} (p : A -> bool) (l : list A) :
  Forall (fun a => p a = true) l -> List.filter p l = l.
Proof.
  induction 1 as [|a l Ha _ IH]; [done|].
  cbn [List.filter]. by rewrite Ha, IH.
Qed.

Lemma filter_unique {A : Type} (key : A -> string) (id : string) (l : list A) :
  NoDup (key <$> l) ->
  List.filter (fun a => String.eqb (key a) id) l =
  match List.find (fun a => String.eqb (key a) id) l with
  | Some a => [a]
  | None => []
  end.
Proof.
  induction l as [|a l IH]; [done|].
  cbn [fmap list_fmap]. intros [Hnotin Hnodup]%NoDup_cons.
  cbn [List.filter List.find].
  destruct (String.eqb_spec (key a) id) as [Heq|_]; [|by apply IH].
  f_equal. clear IH Hnodup. induction l as [|b l IHl]; [done|].
  cbn [List.filter]. destruct (String.eqb_spec (key b) id) as [Hb|_].
  - exfalso. apply Hnotin. cbn [fmap list_fmap]. rewrite Heq, <- Hb. left.
  - apply IHl. intros Hin. apply Hnotin. cbn [fmap list_fmap]. by right.
Qed.

(** X7.  On a queue of items, [removeItem] of either component returns
    the queue without the items that carry the given id, the others in
    their order, and clears the output handle.  When no item carries the
    id the queue is returned as it was, with the handle cleared all the
    same. *)
Theorem removeItem_filters_by_id (id : string) :
  (forall (st : PdfMerge.State) (its : list PdfMerge.Item.t),
      PdfMerge.items st = map object its ->
      exists st',
        PdfMerge.removeItem id st = Some st' /\
        PdfMerge.items st' =
          map object
            (List.filter
               (fun a => negb (String.eqb (PdfMerge.Item.id a) id)) its) /\
        PdfMerge.mergedPdfUrl st' = None /\
        (Forall (fun a => PdfMerge.Item.id a <> id) its ->
         PdfMerge.items st' = PdfMerge.items st)) /\
  (forall (st : JpgToPdf.State) (its : list JpgToPdf.Item.t),
      JpgToPdf.items st = map object its ->
      exists st',
        JpgToPdf.removeItem id st = Some st' /\
        JpgToPdf.items st' =
          map object
            (List.filter
               (fun a => negb (String.eqb (JpgToPdf.Item.id a) id)) its) /\
        JpgToPdf.pdfUrl st' = None /\
        (Forall (fun a => JpgToPdf.Item.id a <> id) its ->
         JpgToPdf.items st' = JpgToPdf.items st)).
Proof.
  split; intros st its Hits.
  - unfold PdfMerge.removeItem.
    cbn [PdfMerge.items PdfMerge.setMergedPdfUrl].
    rewrite Hits, (filter_objects PdfMerge.Item.id
                     (fun y => negb (String.eqb y id))).
    eexists. split; [reflexivity|]. cbn. split_and!; try done.
    intros Habsent. f_equal. apply filter_keeps_all.
    eapply Forall_impl; [exact Habsent|]. intros a Ha. cbn.
    by destruct (String.eqb_spec (PdfMerge.Item.id a) id).
  - unfold JpgToPdf.removeItem.
    cbn [JpgToPdf.items JpgToPdf.setPdfUrl].
    rewrite Hits, (find_objects JpgToPdf.Item.id
                     (fun y => String.eqb y id)).
    cbn [mbind option_bind].
    assert (Hsame : forall (target : option (jsval JpgToPdf.Item.t)) u,
               JpgToPdf.items
                 (match target with
                  | Some (object a) =>
                      JpgToPdf.revokeObjectURL [JpgToPdf.Item.previewUrl a] u
                  | _ => u
                  end) = JpgToPdf.items u).
    { intros [[|a]|] u; done. }
    rewrite Hsame. cbn [JpgToPdf.items JpgToPdf.setPdfUrl]. rewrite Hits.
    rewrite (filter_objects JpgToPdf.Item.id
               (fun y => negb (String.eqb y id))).
    cbn [mbind option_bind].
    eexists. split; [reflexivity|].
    split_and!.
    + done.
    + by destruct (List.find _ its).
    + intros Habsent. cbn. f_equal. apply filter_keeps_all.
      eapply Forall_impl; [exact Habsent|]. intros a Ha. cbn.
      by destruct (String.eqb_spec (JpgToPdf.Item.id a) id).
Qed.

Lemma removeItem_filters_by_id_witness :
  exists st',
    PdfMerge.removeItem "uuid1-B.pdf" Sample.queueABC = Some st' /\
    PdfMerge.items st' =
      [Sample.itemOf 0 Sample.fileA; Sample.itemOf 2 Sample.fileC].
Proof.
  destruct (removeItem_filters_by_id "uuid1-B.pdf") as [Hmerge _].
  destruct (Hmerge Sample.queueABC
              [PdfMerge.newItem Sample.token 0 Sample.fileA;
               PdfMerge.newItem Sample.token 1 Sample.fileB;
               PdfMerge.newItem Sample.token 2 Sample.fileC] eq_refl)
    as (st' & Hrm & Hitems & _).
  exists st'. split; [exact Hrm | exact Hitems].
Defined.

(** X8.  In JpgToPdf, on a queue of items, [removeItem] revokes the
    preview URL of the first item that carries the id and of no other;
    when the ids in the queue are pairwise distinct these are exactly the
    preview URLs of the items it removes.  [clearAll] empties the queue and
    revokes the preview URL of every item, in queue order. *)
Theorem preview_urls_are_revoked (st : JpgToPdf.State)
        (its : list JpgToPdf.Item.t) :
  JpgToPdf.items st = map object its ->
  (forall id, exists st',
      JpgToPdf.removeItem id st = Some st' /\
      JpgToPdf.revoked st' =
        JpgToPdf.revoked st ++
          match List.find (fun a => String.eqb (JpgToPdf.Item.id a) id) its with
          | Some a => [JpgToPdf.Item.previewUrl a]
          | None => []
          end /\
      (NoDup (JpgToPdf.Item.id <$> its) ->
       JpgToPdf.revoked st' =
         JpgToPdf.revoked st ++
           (JpgToPdf.Item.previewUrl <$>
              List.filter (fun a => String.eqb (JpgToPdf.Item.id a) id) its))) /\
  (exists st',
      JpgToPdf.clearAll st = Some st' /\
      JpgToPdf.items st' = [] /\
      JpgToPdf.pdfUrl st' = None /\
      JpgToPdf.errorMsg st' = I18n.empty /\
      JpgToPdf.revoked st' =
        JpgToPdf.revoked st ++ (JpgToPdf.Item.previewUrl <$> its)).
Proof.
  intros Hits. split.
  - intros id. unfold JpgToPdf.removeItem.
    cbn [JpgToPdf.items JpgToPdf.setPdfUrl].
    rewrite Hits, (find_objects JpgToPdf.Item.id (fun y => String.eqb y id)).
    cbn [mbind option_bind].
    assert (Hrev :
      forall next,
        JpgToPdf.revoked
          (JpgToPdf.setItems (fun _ => next)
             (match object <$>
                      List.find
                        (fun a => String.eqb (JpgToPdf.Item.id a) id) its with
              | Some (object a) =>
                  JpgToPdf.revokeObjectURL [JpgToPdf.Item.previewUrl a]
                    (JpgToPdf.setPdfUrl None st)
              | _ => JpgToPdf.setPdfUrl None st
              end)) =
        JpgToPdf.revoked st ++
          match List.find (fun a => String.eqb (JpgToPdf.Item.id a) id) its with
          | Some a => [JpgToPdf.Item.previewUrl a]
          | None => []
          end).
    { intros next. destruct (List.find _ its); cbn; [done|].
      by rewrite app_nil_r. }
    match goal with |- context [Js.filter ?cb ?l] =>
      assert (Hf : exists next, Js.filter cb l = Some next)
    end.
    { destruct (List.find _ its); cbn [fmap option_fmap option_map JpgToPdf.items
                                       JpgToPdf.revokeObjectURL JpgToPdf.setPdfUrl];
        rewrite Hits, (filter_objects JpgToPdf.Item.id
                         (fun y => negb (String.eqb y id))); eauto. }
    destruct Hf as [next Hnext]. rewrite Hnext. cbn [mbind option_bind].
    eexists. split; [reflexivity|]. split; [apply Hrev|].
    intros Hnodup. rewrite Hrev, (filter_unique JpgToPdf.Item.id id its Hnodup).
    by destruct (List.find _ its).
  - unfold JpgToPdf.clearAll.
    cbn [JpgToPdf.items JpgToPdf.setPdfUrl JpgToPdf.setErrorMsg].
    rewrite Hits, forEach_objects. cbn [mbind option_bind].
    eexists. split; [reflexivity|]. done.
Qed.

Lemma preview_urls_are_revoked_witness :
  exists st',
    JpgToPdf.removeItem "uuid1-icon.png" Sample.gallery = Some st' /\
    JpgToPdf.revoked st' = [JpgToPdf.createObjectURL (inl Sample.icon)].
Proof.
  destruct (preview_urls_are_revoked Sample.gallery
              [JpgToPdf.newItem Sample.token 0 Sample.photo;
               JpgToPdf.newItem Sample.token 1 Sample.icon;
               JpgToPdf.newItem Sample.token 2 Sample.dot] eq_refl)
    as [Hremove _].
  destruct (Hremove "uuid1-icon.png") as (st' & Hrm & Hrev & _).
  exists st'. split; [exact Hrm | exact Hrev].
Defined.

(** ** Admission: how many, which, and in front of what *)

Lemma List_filter_sublist {A : Type} (p : A -> bool) (l : list A) :
  List.filter p l `sublist_of` l.
Proof.
  induction l as [|a l IH]; [constructor|].
  cbn [List.filter]. destruct (p a); by constructor.
Qed.

Lemma List_filter_Forall {A : Type} (p : A -> bool) (l : list A) :
  Forall (fun a => p a = true) (List.filter p l).
Proof.
  induction l as [|a l IH]; [constructor|].
  cbn [List.filter]. destruct (p a) eqn:Ha; [by constructor | done].
Qed.

Lemma merge_items_are_their_files token (l : list File.t) :
  PdfMerge.Item.file <$> imap (PdfMerge.newItem token) l = l.
Proof.
  revert token. induction l as [|f l IH]; intros token; [done|].
  cbn [imap fmap list_fmap PdfMerge.newItem PdfMerge.Item.file].
  f_equal. apply (IH (token ∘ S)).
Qed.

Lemma image_items_are_their_files token (l : list File.t) :
  JpgToPdf.Item.file <$> imap (JpgToPdf.newItem token) l = l.
Proof.
  revert token. induction l as [|f l IH]; intros token; [done|].
  cbn [imap fmap list_fmap JpgToPdf.newItem JpgToPdf.Item.file].
  f_equal. apply (IH (token ∘ S)).
Qed.

(** X9.  How long the queue is after [addFiles]: in PdfMerge, starting
    from at most 15 entries, it is the smaller of 15 and the old length
    plus the number of incoming files that pass the type check; in
    JpgToPdf it is always the old length plus that number, with no upper
    limit. *)
Theorem addFiles_length token (fl : list File.t) :
  (forall st : PdfMerge.State,
      length (PdfMerge.items st) <= 15 ->
      length (PdfMerge.items (PdfMerge.addFiles token fl st)) =
        15 `min` (length (PdfMerge.items st)
                  + length (List.filter PdfMerge.isValid fl))) /\
  (forall st : JpgToPdf.State,
      length (JpgToPdf.items (JpgToPdf.addFiles token fl st)) =
        length (JpgToPdf.items st)
        + length (List.filter JpgToPdf.isValid fl)).
Proof.
  split; intros st.
  - intros Hcap.
    destruct (PdfMerge_addFiles_cells token fl st) as (_ & Hi & _).
    unfold PdfMerge.MAX_FILES in Hi. rewrite Hi.
    destruct fl as [|f fl]; [cbn [length Nat.eqb orb List.filter]; lia|].
    cbn [length Nat.eqb orb].
    destruct (Z.leb_spec (15 - Z.of_nat (length (PdfMerge.items st))) 0)
      as [?|?]; [lia|].
    rewrite length_app, length_map, length_imap, length_take. lia.
  - destruct (JpgToPdf_addFiles_cells token fl st) as (_ & Hi & _).
    rewrite Hi.
    destruct (length (List.filter JpgToPdf.isValid fl)) as [|k] eqn:Hk.
    + destruct (List.filter JpgToPdf.isValid fl); [|done].
      rewrite andb_true_r. destruct (0 <? length fl); [lia|].
      cbn. rewrite length_app. cbn. lia.
    + rewrite andb_false_r, length_app, length_map, length_imap. lia.
Qed.

Lemma addFiles_length_witness :
  length (PdfMerge.items
            (PdfMerge.addFiles Sample.token
               [Sample.fileA; Sample.notes; Sample.fileB] Sample.queueABC)) = 5.
Proof.
  destruct (addFiles_length Sample.token
              [Sample.fileA; Sample.notes; Sample.fileB]) as [Hmerge _].
  rewrite (Hmerge Sample.queueABC); [reflexivity | vm_compute; lia].
Defined.

(** X10.  [addFiles] never touches what is queued already: in both
    components the new queue is the old one followed by new items, and
    the files of the new items are incoming files that pass the tool's
    type check, in their incoming order ([sublist]: some may be left out,
    none is repeated or moved). *)
Theorem addFiles_appends_valid_files token (fl : list File.t) :
  (forall st : PdfMerge.State,
      exists added : list PdfMerge.Item.t,
        PdfMerge.items (PdfMerge.addFiles token fl st) =
          PdfMerge.items st ++ map object added /\
        (PdfMerge.Item.file <$> added) `sublist_of` fl /\
        Forall (fun a => PdfMerge.isValid (PdfMerge.Item.file a) = true) added) /\
  (forall st : JpgToPdf.State,
      exists added : list JpgToPdf.Item.t,
        JpgToPdf.items (JpgToPdf.addFiles token fl st) =
          JpgToPdf.items st ++ map object added /\
        (JpgToPdf.Item.file <$> added) `sublist_of` fl /\
        Forall (fun a => JpgToPdf.isValid (JpgToPdf.Item.file a) = true) added).
Proof.
  split; intros st.
  - destruct (PdfMerge_addFiles_cells token fl st) as (_ & Hi & _).
    destruct ((length fl =? 0)
              || (PdfMerge.MAX_FILES
                  - Z.of_nat (length (PdfMerge.items st)) <=? 0)%Z).
    + exists []. rewrite Hi, app_nil_r. repeat split; constructor || apply sublist_nil_l.
    + eexists. split; [exact Hi|]. rewrite merge_items_are_their_files.
      split.
      * etrans; [apply sublist_take | apply List_filter_sublist].
      * apply (proj1 (Forall_fmap PdfMerge.Item.file
                        (fun f => PdfMerge.isValid f = true) _)).
        rewrite merge_items_are_their_files.
        apply Forall_take, List_filter_Forall.
  - destruct (JpgToPdf_addFiles_cells token fl st) as (_ & Hi & _).
    destruct ((0 <? length fl)
              && (length (List.filter JpgToPdf.isValid fl) =? 0)).
    + exists []. rewrite Hi, app_nil_r. repeat split; constructor || apply sublist_nil_l.
    + eexists. split; [exact Hi|]. rewrite image_items_are_their_files.
      split; [apply List_filter_sublist|].
      apply (proj1 (Forall_fmap JpgToPdf.Item.file
                      (fun f => JpgToPdf.isValid f = true) _)).
      rewrite image_items_are_their_files.
      apply List_filter_Forall.
Qed.

(** ** The queue under drops *)

Lemma reorder_permutation {A : Type} (s t : nat) (l : list (jsval A)) :
  s < length l -> reorder s t l ≡ₚ l.
Proof.
  intros Hs. destruct (lookup_lt_is_Some_2 l s Hs) as [x Hx].
  rewrite (reorder_in_range _ _ _ _ Hx).
  rewrite <- Permutation_middle, take_drop. unfold without.
  rewrite Permutation_middle.
  by rewrite <- (drop_S _ _ _ Hx), take_drop.
Qed.

Lemma reorder_back {A : Type} (s t : nat) (l : list (jsval A)) :
  s < length l -> t < length l -> reorder t s (reorder s t l) = l.
Proof.
  intros Hs Ht. apply list_eq. intros i.
  pose proof (length_reorder_in_range s t l Hs) as Hlen.
  rewrite lookup_reorder by lia.
  rewrite !lookup_reorder by lia.
  repeat case_decide; try lia; try done; f_equal; lia.
Qed.

(** X11.  A drop whose recorded drag index lies inside the queue only
    rearranges it: in both components the queue after [onDrop] is a
    permutation of the queue before, whatever the drop index, so no item
    is lost, duplicated or replaced. *)
Theorem onDrop_permutes (t : nat) :
  (forall st : PdfMerge.State,
      (forall s, PdfMerge.dragIndexRef st = Some s ->
                 s < length (PdfMerge.items st)) ->
      PdfMerge.items (PdfMerge.onDrop t st) ≡ₚ PdfMerge.items st) /\
  (forall st : JpgToPdf.State,
      (forall s, JpgToPdf.dragIndexRef st = Some s ->
                 s < length (JpgToPdf.items st)) ->
      JpgToPdf.items (JpgToPdf.onDrop t st) ≡ₚ JpgToPdf.items st).
Proof.
  split; intros st Hin.
  - destruct (PdfMerge_onDrop_cells t st) as (_ & -> & _).
    destruct (PdfMerge.dragIndexRef st) as [s|]; [|done].
    destruct (s =? t); [done|]. by apply reorder_permutation, Hin.
  - destruct (JpgToPdf_onDrop_cells t st) as (_ & -> & _).
    destruct (JpgToPdf.dragIndexRef st) as [s|]; [|done].
    destruct (s =? t); [done|]. by apply reorder_permutation, Hin.
Qed.

Lemma onDrop_permutes_witness :
  PdfMerge.items (PdfMerge.onDrop 0 (PdfMerge.onDragStart 2 Sample.queueABC))
  ≡ₚ PdfMerge.items Sample.queueABC.
Proof.
  destruct (onDrop_permutes 0) as [Hmerge _].
  apply (Hmerge (PdfMerge.onDragStart 2 Sample.queueABC)).
  intros s [= <-]. vm_compute. lia.
Defined.

(** X12.  Dragging an item from [s] to [t] and then from [t] back to [s],
    both inside the queue, restores the order the queue had. *)
Theorem drag_back_restores_order (s t : nat) :
  (forall st : PdfMerge.State,
      s < length (PdfMerge.items st) -> t < length (PdfMerge.items st) ->
      PdfMerge.items
        (PdfMerge.onDrop s
           (PdfMerge.onDragStart t
              (PdfMerge.onDrop t (PdfMerge.onDragStart s st)))) =
      PdfMerge.items st) /\
  (forall st : JpgToPdf.State,
      s < length (JpgToPdf.items st) -> t < length (JpgToPdf.items st) ->
      JpgToPdf.items
        (JpgToPdf.onDrop s
           (JpgToPdf.onDragStart t
              (JpgToPdf.onDrop t (JpgToPdf.onDragStart s st)))) =
      JpgToPdf.items st).
Proof.
  split; intros st Hs Ht.
  - destruct (PdfMerge_onDrop_cells s
                (PdfMerge.onDragStart t
                   (PdfMerge.onDrop t (PdfMerge.onDragStart s st))))
      as (_ & -> & _).
    destruct (PdfMerge_onDrop_cells t (PdfMerge.onDragStart s st))
      as (_ & Hi & _).
    cbn [PdfMerge.dragIndexRef PdfMerge.items PdfMerge.onDragStart
         PdfMerge.setDragIndexRef] in *.
    rewrite Hi. rewrite (Nat.eqb_sym t s).
    destruct (Nat.eqb_spec s t) as [|_]; [done|]. by apply reorder_back.
  - destruct (JpgToPdf_onDrop_cells s
                (JpgToPdf.onDragStart t
                   (JpgToPdf.onDrop t (JpgToPdf.onDragStart s st))))
      as (_ & -> & _).
    destruct (JpgToPdf_onDrop_cells t (JpgToPdf.onDragStart s st))
      as (_ & Hi & _).
    cbn [JpgToPdf.dragIndexRef JpgToPdf.items JpgToPdf.onDragStart
         JpgToPdf.setDragIndexRef] in *.
    rewrite Hi. rewrite (Nat.eqb_sym t s).
    destruct (Nat.eqb_spec s t) as [|_]; [done|]. by apply reorder_back.
Qed.

Lemma drag_back_restores_order_witness :
  PdfMerge.items
    (PdfMerge.onDrop 0
       (PdfMerge.onDragStart 2
          (PdfMerge.onDrop 2 (PdfMerge.onDragStart 0 Sample.queueABC)))) =
  PdfMerge.items Sample.queueABC.
Proof.
  destruct (drag_back_restores_order 0 2) as [Hmerge _].
  apply (Hmerge Sample.queueABC); vm_compute; lia.
Defined.

(** X13.  A drop ends the drag: after [onDrop] no drag index is recorded,
    so a second drop that is not preceded by a new [onDragStart] changes
    neither the queue nor the output handle, in both components. *)
Theorem second_drop_does_nothing (t t' : nat) :
  (forall st : PdfMerge.State,
      PdfMerge.items (PdfMerge.onDrop t' (PdfMerge.onDrop t st)) =
        PdfMerge.items (PdfMerge.onDrop t st) /\
      PdfMerge.mergedPdfUrl (PdfMerge.onDrop t' (PdfMerge.onDrop t st)) =
        PdfMerge.mergedPdfUrl (PdfMerge.onDrop t st)) /\
  (forall st : JpgToPdf.State,
      JpgToPdf.items (JpgToPdf.onDrop t' (JpgToPdf.onDrop t st)) =
        JpgToPdf.items (JpgToPdf.onDrop t st) /\
      JpgToPdf.pdfUrl (JpgToPdf.onDrop t' (JpgToPdf.onDrop t st)) =
        JpgToPdf.pdfUrl (JpgToPdf.onDrop t st)).
Proof.
  split; intros st.
  - destruct (PdfMerge_onDrop_cells t st) as (Hd & _).
    destruct (PdfMerge_onDrop_cells t' (PdfMerge.onDrop t st))
      as (_ & -> & ->).
    by rewrite Hd.
  - destruct (JpgToPdf_onDrop_cells t st) as (Hd & _).
    destruct (JpgToPdf_onDrop_cells t' (JpgToPdf.onDrop t st))
      as (_ & -> & ->).
    by rewrite Hd.
Qed.

(** ** The limit of fifteen, and what a stale drop does to it *)

Lemma PdfMerge_addFiles_within_cap token (fl : list File.t)
      (st : PdfMerge.State) :
  length (PdfMerge.items st) <= 15 ->
  length (PdfMerge.items (PdfMerge.addFiles token fl st)) <= 15.
Proof.
  intros Hcap. destruct (PdfMerge_addFiles_cells token fl st) as (_ & Hi & _).
  unfold PdfMerge.MAX_FILES in Hi. rewrite Hi.
  destruct (length fl =? 0); [done|]. cbn [orb].
  destruct (Z.leb_spec (15 - Z.of_nat (length (PdfMerge.items st))) 0)
    as [?|?]; [done|].
  rewrite length_app, length_map, length_imap, length_take. lia.
Qed.

(** X14.  The PdfMerge queue never grows beyond fifteen entries: starting
    from at most fifteen, every handler that changes the queue
    ([addFiles], [removeItem], [clearAll], and [onDrop] when the recorded
    drag index lies inside the queue) leaves at most fifteen. *)
Theorem queue_stays_within_cap (m : PdfMerge.Mutation)
        (st st' : PdfMerge.State) :
  length (PdfMerge.items st) <= 15 ->
  (forall t s, m = PdfMerge.Drop t -> PdfMerge.dragIndexRef st = Some s ->
               s < length (PdfMerge.items st)) ->
  PdfMerge.mutate m st = Some st' ->
  length (PdfMerge.items st') <= 15.
Proof.
  intros Hcap Hin. destruct m as [token fl|id| |t]; cbn [PdfMerge.mutate].
  - intros [= <-]. by apply PdfMerge_addFiles_within_cap.
  - unfold PdfMerge.removeItem.
    cbn [PdfMerge.items PdfMerge.setMergedPdfUrl].
    destruct (Js.filter _ (PdfMerge.items st)) as [next|] eqn:Hnext; [|done].
    intros [= <-]. apply filter_shorter in Hnext. cbn. lia.
  - intros [= <-]. cbn. lia.
  - intros [= <-]. destruct (PdfMerge_onDrop_cells t st) as (_ & -> & _).
    destruct (PdfMerge.dragIndexRef st) as [s|] eqn:Hdrag; [|done].
    destruct (s =? t); [done|].
    rewrite length_reorder_in_range; [done|]. by eapply Hin.
Qed.

Lemma queue_stays_within_cap_witness :
  length (PdfMerge.items
            (PdfMerge.addFiles Sample.token
               [Sample.fileB; Sample.fileC] Sample.fullQueue)) <= 15.
Proof.
  refine (queue_stays_within_cap
            (PdfMerge.AddFiles Sample.token [Sample.fileB; Sample.fileC])
            Sample.fullQueue _ _ _ eq_refl).
  - vm_compute. lia.
  - intros t s Hm. discriminate Hm.
Defined.

Lemma undefined_is_spliced_in {A : Type} (t : nat) (l : list (jsval A)) :
  undefined ∈ take t l ++ undefined :: drop t l.
Proof. apply elem_of_app. right. apply elem_of_cons. by left. Qed.

Lemma PdfMerge_renderFrom_objects (its : list PdfMerge.Item.t) (idx : nat) :
  exists rows,
    PdfMerge.renderFrom idx (map object its) = Some rows /\
    PdfMerge.rowKey <$> rows = PdfMerge.Item.id <$> its /\
    PdfMerge.rowName <$> rows = (File.name ∘ PdfMerge.Item.file) <$> its /\
    PdfMerge.rowPill <$> rows = seq (idx + 1) (length its).
Proof.
  revert idx. induction its as [|a its IH]; intros idx; [by exists []|].
  destruct (IH (idx + 1)) as (rows & Hrows & Hkeys & Hnames & Hpills).
  eexists. cbn [map PdfMerge.renderFrom PdfMerge.renderItem Js.prop
                mbind option_bind].
  rewrite Hrows. cbn [mbind option_bind]. split; [reflexivity|].
  cbn [fmap list_fmap PdfMerge.rowKey PdfMerge.rowName PdfMerge.rowPill
       length seq compose].
  rewrite Hkeys, Hnames, Hpills.
  replace (idx + 1 + 1) with (S (idx + 1)) by lia. done.
Qed.

Lemma PdfMerge_renderFrom_undefined (l : list (jsval PdfMerge.Item.t))
      (idx : nat) :
  undefined ∈ l -> PdfMerge.renderFrom idx l = None.
Proof.
  revert idx. induction l as [|x l IH]; intros idx Hin;
    [by apply elem_of_nil in Hin|].
  apply elem_of_cons in Hin as [<-|Hin]; [done|].
  cbn [PdfMerge.renderFrom]. rewrite (IH _ Hin).
  by destruct (PdfMerge.renderItem idx x).
Qed.

Lemma JpgToPdf_renderFrom_objects (its : list JpgToPdf.Item.t) (idx : nat) :
  exists rows,
    JpgToPdf.renderFrom idx (map object its) = Some rows /\
    JpgToPdf.rowKey <$> rows = JpgToPdf.Item.id <$> its /\
    JpgToPdf.rowName <$> rows = (File.name ∘ JpgToPdf.Item.file) <$> its /\
    JpgToPdf.rowPill <$> rows = seq (idx + 1) (length its).
Proof.
  revert idx. induction its as [|a its IH]; intros idx; [by exists []|].
  destruct (IH (idx + 1)) as (rows & Hrows & Hkeys & Hnames & Hpills).
  eexists. cbn [map JpgToPdf.renderFrom JpgToPdf.renderItem Js.prop
                mbind option_bind].
  rewrite Hrows. cbn [mbind option_bind]. split; [reflexivity|].
  cbn [fmap list_fmap JpgToPdf.rowKey JpgToPdf.rowName JpgToPdf.rowPill
       length seq compose].
  rewrite Hkeys, Hnames, Hpills.
  replace (idx + 1 + 1) with (S (idx + 1)) by lia. done.
Qed.

Lemma JpgToPdf_renderFrom_undefined (l : list (jsval JpgToPdf.Item.t))
      (idx : nat) :
  undefined ∈ l -> JpgToPdf.renderFrom idx l = None.
Proof.
  revert idx. induction l as [|x l IH]; intros idx Hin;
    [by apply elem_of_nil in Hin|].
  apply elem_of_cons in Hin as [<-|Hin]; [done|].
  cbn [JpgToPdf.renderFrom]. rewrite (IH _ Hin).
  by destruct (JpgToPdf.renderItem idx x).
Qed.

Lemma lookup_spliced_in {A : Type} (t : nat) (l : list (jsval A)) :
  (take t l ++ undefined :: drop t l) !! (t `min` length l) = Some undefined.
Proof. apply list_lookup_middle. by rewrite length_take. Qed.

(** X15.  The item list and a stale drop, in both components.  On a queue
    of items the list renders one row per item, in queue order, each with
    the item's id as key, its file name and its position counted from 1.
    After a drop whose recorded drag index lies past the end of the queue,
    the queue is one entry longer, holds [undefined] at the drop position
    (at the end when the drop index is past the end too), and the render of
    the list throws. *)
Theorem stale_drop_breaks_the_queue (s t : nat) :
  (forall st : PdfMerge.State,
      (forall its, PdfMerge.items st = map object its ->
         exists rows,
           PdfMerge.renderItems st = Some rows /\
           PdfMerge.rowKey <$> rows = PdfMerge.Item.id <$> its /\
           PdfMerge.rowName <$> rows =
             (File.name ∘ PdfMerge.Item.file) <$> its /\
           PdfMerge.rowPill <$> rows = seq 1 (length its)) /\
      (PdfMerge.dragIndexRef st = Some s -> s <> t ->
       length (PdfMerge.items st) <= s ->
       let st' := PdfMerge.onDrop t st in
       length (PdfMerge.items st') = S (length (PdfMerge.items st)) /\
       PdfMerge.items st' !! (t `min` length (PdfMerge.items st)) =
         Some undefined /\
       PdfMerge.renderItems st' = None)) /\
  (forall st : JpgToPdf.State,
      (forall its, JpgToPdf.items st = map object its ->
         exists rows,
           JpgToPdf.renderItems st = Some rows /\
           JpgToPdf.rowKey <$> rows = JpgToPdf.Item.id <$> its /\
           JpgToPdf.rowName <$> rows =
             (File.name ∘ JpgToPdf.Item.file) <$> its /\
           JpgToPdf.rowPill <$> rows = seq 1 (length its)) /\
      (JpgToPdf.dragIndexRef st = Some s -> s <> t ->
       length (JpgToPdf.items st) <= s ->
       let st' := JpgToPdf.onDrop t st in
       length (JpgToPdf.items st') = S (length (JpgToPdf.items st)) /\
       JpgToPdf.items st' !! (t `min` length (JpgToPdf.items st)) =
         Some undefined /\
       JpgToPdf.renderItems st' = None)).
Proof.
  split; intros st; split.
  - intros its Hits. unfold PdfMerge.renderItems. rewrite Hits.
    apply (PdfMerge_renderFrom_objects its 0).
  - intros Hdrag Hne Hlen st'.
    assert (Hitems : PdfMerge.items st' =
              take t (PdfMerge.items st)
                ++ undefined :: drop t (PdfMerge.items st)).
    { unfold st'. destruct (PdfMerge_onDrop_cells t st) as (_ & -> & _).
      rewrite Hdrag. destruct (Nat.eqb_spec s t) as [?|_]; [done|].
      by apply reorder_out_of_range. }
    split_and!.
    + rewrite Hitems, length_app. cbn [length].
      rewrite length_take, length_drop. lia.
    + rewrite Hitems. apply lookup_spliced_in.
    + unfold PdfMerge.renderItems. apply PdfMerge_renderFrom_undefined.
      rewrite Hitems. apply undefined_is_spliced_in.
  - intros its Hits. unfold JpgToPdf.renderItems. rewrite Hits.
    apply (JpgToPdf_renderFrom_objects its 0).
  - intros Hdrag Hne Hlen st'.
    assert (Hitems : JpgToPdf.items st' =
              take t (JpgToPdf.items st)
                ++ undefined :: drop t (JpgToPdf.items st)).
    { unfold st'. destruct (JpgToPdf_onDrop_cells t st) as (_ & -> & _).
      rewrite Hdrag. destruct (Nat.eqb_spec s t) as [?|_]; [done|].
      by apply reorder_out_of_range. }
    split_and!.
    + rewrite Hitems, length_app. cbn [length].
      rewrite length_take, length_drop. lia.
    + rewrite Hitems. apply lookup_spliced_in.
    + unfold JpgToPdf.renderItems. apply JpgToPdf_renderFrom_undefined.
      rewrite Hitems. apply undefined_is_spliced_in.
Qed.

(** The third of three cards is picked up, its item is removed, and a
    drop arrives on the first card. *)
Lemma stale_drop_breaks_the_queue_witness :
  PdfMerge.removeItem "uuid2-C.PDF" (PdfMerge.onDragStart 2 Sample.queueABC) =
    Some Sample.afterRemoval /\
  PdfMerge.items (PdfMerge.onDrop 0 Sample.afterRemoval) !! 0 =
    Some undefined /\
  PdfMerge.renderItems (PdfMerge.onDrop 0 Sample.afterRemoval) = None.
Proof.
  split; [reflexivity|].
  destruct (stale_drop_breaks_the_queue 2 0) as [Hmerge _].
  destruct (Hmerge Sample.afterRemoval) as (_ & Hstale).
  destruct Hstale as (_ & Hundef & Hrender).
  - reflexivity.
  - discriminate.
  - vm_compute. lia.
  - split; [exact Hundef | exact Hrender].
Defined.

(** ** Adding a file and removing it again *)

Lemma PdfMerge_removeItem_objects (id : string) (st : PdfMerge.State)
      (its : list PdfMerge.Item.t) :
  PdfMerge.items st = map object its ->
  exists st',
    PdfMerge.removeItem id st = Some st' /\
    PdfMerge.items st' =
      map object
        (List.filter (fun a => negb (String.eqb (PdfMerge.Item.id a) id)) its).
Proof.
  intros Hits. unfold PdfMerge.removeItem.
  cbn [PdfMerge.items PdfMerge.setMergedPdfUrl].
  rewrite Hits, (filter_objects PdfMerge.Item.id
                   (fun y => negb (String.eqb y id))).
  eexists. split; reflexivity.
Qed.

Lemma JpgToPdf_removeItem_objects (id : string) (st : JpgToPdf.State)
      (its : list JpgToPdf.Item.t) :
  JpgToPdf.items st = map object its ->
  exists st',
    JpgToPdf.removeItem id st = Some st' /\
    JpgToPdf.items st' =
      map object
        (List.filter (fun a => negb (String.eqb (JpgToPdf.Item.id a) id)) its).
Proof.
  intros Hits. unfold JpgToPdf.removeItem.
  cbn [JpgToPdf.items JpgToPdf.setPdfUrl].
  rewrite Hits, (find_objects JpgToPdf.Item.id (fun y => String.eqb y id)).
  cbn [mbind option_bind].
  assert (Hsame : forall (target : option (jsval JpgToPdf.Item.t)) u,
             JpgToPdf.items
               (match target with
                | Some (object a) =>
                    JpgToPdf.revokeObjectURL [JpgToPdf.Item.previewUrl a] u
                | _ => u
                end) = JpgToPdf.items u).
  { intros [[|a]|] u; done. }
  rewrite Hsame. cbn [JpgToPdf.items JpgToPdf.setPdfUrl]. rewrite Hits.
  rewrite (filter_objects JpgToPdf.Item.id (fun y => negb (String.eqb y id))).
  cbn [mbind option_bind]. eexists. split; [reflexivity|].
  by destruct (List.find _ its).
Qed.

Lemma filter_drops_new {A : Type} (key : A -> string) (its : list A) (a : A) :
  Forall (fun b => key b <> key a) its ->
  List.filter (fun b => negb (String.eqb (key b) (key a))) (its ++ [a]) = its.
Proof.
  intros Hfresh. rewrite List.filter_app. cbn [List.filter].
  rewrite String.eqb_refl. cbn [negb]. rewrite app_nil_r.
  apply filter_keeps_all. eapply Forall_impl; [exact Hfresh|].
  intros b Hb. cbn. by destruct (String.eqb_spec (key b) (key a)).
Qed.

(** X16.  Adding one file and removing the item made for it gives back
    the queue: on a queue of items none of which carries the new item's
    id, [addFiles] of a single file that passes the type check (in
    PdfMerge: while there is a free slot) followed by [removeItem] of the
    new id returns the queue as it was before the two calls. *)
Theorem add_then_remove_restores_queue token (f : File.t) :
  (forall (st : PdfMerge.State) (its : list PdfMerge.Item.t),
      PdfMerge.items st = map object its ->
      length its < 15 ->
      PdfMerge.isValid f = true ->
      Forall (fun a => PdfMerge.Item.id a
                       <> PdfMerge.Item.id (PdfMerge.newItem token 0 f)) its ->
      exists st',
        PdfMerge.removeItem (PdfMerge.Item.id (PdfMerge.newItem token 0 f))
                            (PdfMerge.addFiles token [f] st) = Some st' /\
        PdfMerge.items st' = PdfMerge.items st) /\
  (forall (st : JpgToPdf.State) (its : list JpgToPdf.Item.t),
      JpgToPdf.items st = map object its ->
      JpgToPdf.isValid f = true ->
      Forall (fun a => JpgToPdf.Item.id a
                       <> JpgToPdf.Item.id (JpgToPdf.newItem token 0 f)) its ->
      exists st',
        JpgToPdf.removeItem (JpgToPdf.Item.id (JpgToPdf.newItem token 0 f))
                            (JpgToPdf.addFiles token [f] st) = Some st' /\
        JpgToPdf.items st' = JpgToPdf.items st).
Proof.
  split.
  - intros st its Hits Hroom Hvalid Hfresh.
    destruct (PdfMerge_addFiles_fits token [f] st) as (Hadd & _).
    { rewrite Hits, length_map. lia. }
    { cbn [List.filter]. rewrite Hvalid, Hits, length_map. cbn. lia. }
    cbn [List.filter] in Hadd. rewrite Hvalid in Hadd. cbn [imap map] in Hadd.
    assert (Hadd' : PdfMerge.items (PdfMerge.addFiles token [f] st) =
                    map object (its ++ [PdfMerge.newItem token 0 f])).
    { by rewrite Hadd, Hits, map_app. }
    destruct (PdfMerge_removeItem_objects
                (PdfMerge.Item.id (PdfMerge.newItem token 0 f)) _ _ Hadd')
      as (st' & Hrm & Hitems).
    exists st'. split; [exact Hrm|].
    by rewrite Hitems, (filter_drops_new PdfMerge.Item.id), Hits.
  - intros st its Hits Hvalid Hfresh.
    destruct (JpgToPdf_addFiles_cells token [f] st) as (_ & Hadd & _).
    cbn [List.filter] in Hadd. rewrite Hvalid in Hadd. cbn in Hadd.
    assert (Hadd' : JpgToPdf.items (JpgToPdf.addFiles token [f] st) =
                    map object (its ++ [JpgToPdf.newItem token 0 f])).
    { by rewrite Hadd, Hits, map_app. }
    destruct (JpgToPdf_removeItem_objects
                (JpgToPdf.Item.id (JpgToPdf.newItem token 0 f)) _ _ Hadd')
      as (st' & Hrm & Hitems).
    exists st'. split; [exact Hrm|].
    by rewrite Hitems, (filter_drops_new JpgToPdf.Item.id), Hits.
Qed.

Lemma add_then_remove_restores_queue_witness :
  exists st',
    PdfMerge.removeItem "uuid0-C.PDF"
      (PdfMerge.addFiles Sample.token [Sample.fileC] Sample.queueAB) = Some st' /\
    PdfMerge.items st' = PdfMerge.items Sample.queueAB.
Proof.
  destruct (add_then_remove_restores_queue Sample.token Sample.fileC)
    as [Hmerge _].
  apply (Hmerge Sample.queueAB
           [PdfMerge.newItem Sample.token 0 Sample.fileA;
            PdfMerge.newItem Sample.token 1 Sample.fileB]).
  - reflexivity.
  - vm_compute. lia.
  - reflexivity.
  - repeat constructor; vm_compute; discriminate.
Defined.

(** ** Orientation and image format of a page *)

Lemma pagePt_le (a b : N) :
  (JpgToPdf.pagePt a <= JpgToPdf.pagePt b)%Q <-> (a <= b)%N \/ (a <= 1)%N.
Proof.
  unfold JpgToPdf.pagePt. rewrite Q.max_lub_iff, !Q.max_le_iff.
  unfold JpgToPdf.pxToPt, Qle, Qmult, inject_Z. cbn [Qnum Qden].
  split.
  - intros [_ [H|H]]; lia.
  - intros [H|H]; (split; [left; lia|]); [right | left]; lia.
Qed.

(** X17.  The orientation of a page in terms of the pixels of its image:
    the page is landscape exactly when the image is at least as wide as
    it is high or is at most one pixel high, and portrait otherwise.  For
    every image at least one pixel wide this is: landscape exactly when
    the pixel width is greater than or equal to the pixel height, so that
    a square image gets a landscape page. *)
Theorem orientation_by_pixels (file : File.t) (dataUrl : JpgToPdf.DataUrl)
        (img : JpgToPdf.Image) (pdf : option JpgToPdf.jsPDF) :
  let w := JpgToPdf.naturalWidth img in
  let h := JpgToPdf.naturalHeight img in
  exists pg,
    JpgToPdf.pdfPages (JpgToPdf.placeImage file dataUrl img pdf) =
      JpgToPdf.pagesOf pdf ++ [pg] /\
    (JpgToPdf.pageOrientation pg = "l" <-> (h <= w)%N \/ (h <= 1)%N) /\
    (JpgToPdf.pageOrientation pg = "p" <-> (w < h)%N /\ (1 < h)%N) /\
    ((1 <= w)%N -> (JpgToPdf.pageOrientation pg = "l" <-> (h <= w)%N)).
Proof.
  intros w h. eexists. split; [apply placeImage_pages|].
  cbn [JpgToPdf.pageOrientation]. unfold JpgToPdf.orientationOf.
  fold w h. pose proof (pagePt_le h w) as Hle.
  destruct (Qle_bool (JpgToPdf.pagePt h) (JpgToPdf.pagePt w)) eqn:Hb.
  - apply Qle_bool_iff, Hle in Hb.
    split_and!; [done | split; [done | lia] |].
    intros Hw. split; [lia | done].
  - assert (Hn : ~ ((h <= w)%N \/ (h <= 1)%N)).
    { intros H. apply Hle, Qle_bool_iff in H. congruence. }
    split_and!; [split; [done | tauto] | split; [lia | done] |].
    intros Hw. split; [done | lia].
Qed.

Lemma orientation_by_pixels_witness :
  exists pg,
    JpgToPdf.pdfPages
      (JpgToPdf.placeImage Sample.icon "icon.png"
         {| JpgToPdf.naturalWidth := 16; JpgToPdf.naturalHeight := 16 |} None) =
      [pg] /\
    JpgToPdf.pageOrientation pg = "l".
Proof.
  destruct (orientation_by_pixels Sample.icon "icon.png"
              {| JpgToPdf.naturalWidth := 16; JpgToPdf.naturalHeight := 16 |}
              None) as (pg & Hpages & _ & _ & Hsquare).
  exists pg. split; [exact Hpages|].
  apply Hsquare; vm_compute; discriminate.
Defined.

(** X18.  For a file that passes the type check of JpgToPdf, the format
    handed to jsPDF follows the declared type: "JPEG" exactly for
    [image/jpeg] and [image/jpg], "PNG" exactly for [image/png]. *)
Theorem admitted_image_format (file : File.t) (dataUrl : JpgToPdf.DataUrl)
        (img : JpgToPdf.Image) (pdf : option JpgToPdf.jsPDF) :
  JpgToPdf.isValid file = true ->
  exists pg pl,
    JpgToPdf.pdfPages (JpgToPdf.placeImage file dataUrl img pdf) =
      JpgToPdf.pagesOf pdf ++ [pg] /\
    JpgToPdf.pageImages pg = [pl] /\
    JpgToPdf.imageData pl = dataUrl /\
    (JpgToPdf.imageFormat pl = "JPEG" <->
     File.type file = "image/jpeg" \/ File.type file = "image/jpg") /\
    (JpgToPdf.imageFormat pl = "PNG" <-> File.type file = "image/png").
Proof.
  intros Hvalid. eexists _, _. split; [apply placeImage_pages|].
  cbn [JpgToPdf.pageImages JpgToPdf.imageData JpgToPdf.imageFormat].
  split_and!; try done;
    unfold JpgToPdf.isValid, Js.includes, JpgToPdf.acceptTypes in Hvalid;
    cbn [existsb] in Hvalid;
    destruct (String.eqb_spec (File.type file) "image/jpeg") as [->|H1];
    [split; [by left | done] | | by split | ];
    destruct (String.eqb_spec (File.type file) "image/jpg") as [->|H2];
    [split; [by right | done] | | by split | ];
    destruct (String.eqb_spec (File.type file) "image/png") as [->|H3];
    cbn in Hvalid; try done.
  - split; [done | by intros [|]].
Qed.

Lemma admitted_image_format_witness :
  exists pg pl,
    JpgToPdf.pdfPages
      (JpgToPdf.placeImage Sample.photo "photo.jpg"
         {| JpgToPdf.naturalWidth := 800; JpgToPdf.naturalHeight := 600 |}
         None) = [pg] /\
    JpgToPdf.pageImages pg = [pl] /\
    JpgToPdf.imageFormat pl = "JPEG".
Proof.
  destruct (admitted_image_format Sample.photo "photo.jpg"
              {| JpgToPdf.naturalWidth := 800; JpgToPdf.naturalHeight := 600 |}
              None eq_refl) as (pg & pl & Hpages & Himg & _ & Hjpeg & _).
  exists pg, pl. split_and!; [exact Hpages | exact Himg |].
  apply Hjpeg. by left.
Defined.

(** ** The type check of the two tools *)

Lemma toLowerCase_append (a b : string) :
  Js.toLowerCase (a +:+ b) = Js.toLowerCase a +:+ Js.toLowerCase b.
Proof.
  induction a as [|c a IH]; [done|].
  change (String (Js.lower_ascii c) (Js.toLowerCase (a +:+ b)) =
          String (Js.lower_ascii c) (Js.toLowerCase a +:+ Js.toLowerCase b)).
  by rewrite IH.
Qed.

Lemma length_append (a b : string) :
  String.length (a +:+ b) = String.length a + String.length b.
Proof.
  induction a as [|c a IH]; [done|].
  change (S (String.length (a +:+ b)) =
          S (String.length a) + String.length b).
  by rewrite IH.
Qed.

Lemma substring_all (b : string) : substring 0 (String.length b) b = b.
Proof.
  induction b as [|c b IH]; [done|].
  change (String c (substring 0 (String.length b) b) = String c b).
  by rewrite IH.
Qed.

Lemma substring_append (a b : string) :
  substring (String.length a) (String.length b) (a +:+ b) = b.
Proof. induction a as [|c a IH]; [apply substring_all | exact IH]. Qed.

Lemma endsWith_append (a suffix : string) :
  Js.endsWith suffix (a +:+ suffix) = true.
Proof.
  unfold Js.endsWith. rewrite length_append.
  replace (String.length a + String.length suffix - String.length suffix)
    with (String.length a) by lia.
  rewrite substring_append, String.eqb_refl.
  by destruct (Nat.leb_spec (String.length suffix)
                 (String.length a + String.length suffix)) as [_|?]; [|lia].
Qed.

(** X19.  PdfMerge accepts a file by its name alone when the name ends in
    ".pdf" written in any mix of upper and lower case, whatever type the
    browser declares for it (none, or a wrong one); JpgToPdf looks at the
    declared type only, so it rejects every file for which the browser
    declares no type, whatever the name, and accepts a file of a listed
    type under any name. *)
Theorem type_check_by_name_and_type (base ext type : string) (size : N) :
  (Js.toLowerCase ext = ".pdf" ->
   PdfMerge.isValid (File.mk (base +:+ ext) type size) = true) /\
  PdfMerge.isValid (File.mk base "application/pdf" size) = true /\
  JpgToPdf.isValid (File.mk base "" size) = false /\
  (In type JpgToPdf.acceptTypes ->
   JpgToPdf.isValid (File.mk base type size) = true).
Proof.
  split_and!.
  - intros Hext. unfold PdfMerge.isValid. cbn [File.name File.type].
    by rewrite toLowerCase_append, Hext, endsWith_append, orb_true_r.
  - done.
  - done.
  - intros Hin. unfold JpgToPdf.isValid, Js.includes. cbn [File.type].
    apply existsb_exists. exists type. by rewrite String.eqb_refl.
Qed.

Lemma type_check_by_name_and_type_witness :
  PdfMerge.isValid (File.mk "Report.Final.PdF" "text/plain" 10) = true /\
  JpgToPdf.isValid (File.mk "scan" "image/png" 10) = true.
Proof.
  destruct (type_check_by_name_and_type "Report.Final" ".PdF" "text/plain" 10)
    as (Hext & _).
  destruct (type_check_by_name_and_type "scan" "" "image/png" 10)
    as (_ & _ & _ & Hty).
  split; [apply Hext; reflexivity |].
  apply Hty. right. right. by left.
Defined.

(** ** Size labels *)

Lemma Qfloor_plus_half (z : Z) : Qfloor (inject_Z z * inject_Z 1 + (1 # 2)) = z.
Proof.
  unfold Qfloor, Qplus, Qmult, inject_Z. cbn [Qnum Qden Pos.mul].
  symmetry. apply Z.div_unique with (r := 1%Z); lia.
Qed.

Lemma Qle_bool_false (a b : Q) : Qle_bool a b = false -> (b < a)%Q.
Proof.
  intros Hb. apply Qnot_le_lt. intros Hle.
  apply Qle_bool_iff in Hle. congruence.
Qed.

(** X20.  A size below 1024 bytes is labelled with the exact number of
    bytes and the unit B. *)
Theorem formatBytes_below_1024 (bytes : N) :
  (bytes < 1024)%N -> formatBytes bytes = pretty bytes +:+ " B".
Proof.
  intros Hsmall. unfold formatBytes.
  change (length units - 1) with 3. cbn [scale].
  assert (Hno : Qle_bool 1024 (inject_Z (Z.of_N bytes)) = false).
  { destruct (Qle_bool 1024 (inject_Z (Z.of_N bytes))) eqn:Hb; [|done].
    apply Qle_bool_iff in Hb. unfold Qle, inject_Z in Hb.
    cbn [Qnum Qden] in Hb. lia. }
  rewrite Hno. cbn [andb Nat.eqb]. rewrite orb_true_r.
  unfold toFixed. change (10 ^ Z.of_nat 0)%Z with 1%Z.
  by rewrite Qfloor_plus_half, N2Z.id.
Qed.

Lemma formatBytes_below_1024_witness : formatBytes 1023 = "1023 B".
Proof. apply (formatBytes_below_1024 1023). vm_compute. reflexivity. Defined.

Lemma scale_at_least_one (fuel : nat) :
  forall (val : Q) (idx : nat),
    (1 <= val)%Q -> (1 <= (scale fuel val idx).1)%Q.
Proof.
  induction fuel as [|fuel IH]; intros val idx Hval; [done|].
  cbn [scale].
  destruct (Qle_bool 1024 val && (idx <? length units - 1)) eqn:Hcond; [|done].
  apply andb_true_iff in Hcond as [Hbig _]. apply Qle_bool_iff in Hbig.
  apply IH. apply Qle_shift_div_l; [done|]. by rewrite Qmult_1_l.
Qed.

Lemma scale_spec (fuel : nat) :
  forall (val : Q) (idx : nat),
    let r := scale fuel val idx in
    idx <= r.2 /\
    (idx <= 3 -> r.2 <= 3) /\
    r.1 * inject_Z (1024 ^ Z.of_nat (r.2 - idx)) == val /\
    (3 <= idx + fuel -> r.2 < 3 -> (r.1 < 1024)%Q) /\
    (idx < r.2 -> (1 <= r.1)%Q).
Proof.
  induction fuel as [|fuel IH]; intros val idx.
  - cbn [scale fst snd]. rewrite Nat.sub_diag.
    split_and!; try lia; try done.
    change (inject_Z (1024 ^ Z.of_nat 0)) with 1%Q. apply Qmult_1_r.
  - cbn [scale]. change (length units - 1) with 3.
    destruct (Qle_bool 1024 val && (idx <? 3)) eqn:Hcond.
    + apply andb_true_iff in Hcond as [Hbig Hidx].
      apply Qle_bool_iff in Hbig. apply Nat.ltb_lt in Hidx.
      specialize (IH (val / 1024)%Q (idx + 1)). cbv zeta in IH.
      destruct IH as (Hle & Hcap & Heq & Hlt & _).
      set (r := scale fuel (val / 1024) (idx + 1)) in *.
      cbv zeta. split_and!; try lia.
      * replace (r.2 - idx) with (S (r.2 - (idx + 1))) by lia.
        rewrite Nat2Z.inj_succ, Z.pow_succ_r by lia.
        rewrite inject_Z_mult, (Qmult_comm (inject_Z 1024)), Qmult_assoc, Heq.
        rewrite Qmult_comm. by apply Qmult_div_r.
      * intros Hfuel. apply Hlt. lia.
      * intros _. apply scale_at_least_one.
        apply Qle_shift_div_l; [done|]. by rewrite Qmult_1_l.
    + cbn [fst snd]. rewrite Nat.sub_diag.
      split_and!; try lia; try done.
      * change (inject_Z (1024 ^ Z.of_nat 0)) with 1%Q. apply Qmult_1_r.
      * intros _ Hidx. apply andb_false_iff in Hcond as [Hb|Hb].
        -- by apply Qle_bool_false.
        -- apply Nat.ltb_ge in Hb. lia.
Qed.

(** X21.  What every size label shows.  For the value and the unit index
    that [formatBytes] ends its loop with: the unit is one of B, KB, MB,
    GB; the value times 1024 to the power of the index is the size in
    bytes; below GB the value is less than 1024; above B it is at least
    1.  The label is that value, rounded, a space and the unit. *)
Theorem formatBytes_value_and_unit (bytes : N) :
  let r := scale (length units - 1) (inject_Z (Z.of_N bytes)) 0 in
  is_Some (units !! r.2) /\
  r.1 * inject_Z (1024 ^ Z.of_nat r.2) == inject_Z (Z.of_N bytes) /\
  (r.2 < 3 -> (r.1 < 1024)%Q) /\
  (0 < r.2 -> (1 <= r.1)%Q) /\
  formatBytes bytes =
    toFixed (if Qle_bool 10 r.1 || (r.2 =? 0) then 0 else 1) r.1
      +:+ " " +:+ default "" (units !! r.2).
Proof.
  intros r.
  destruct (scale_spec 3 (inject_Z (Z.of_N bytes)) 0)
    as (_ & Hcap & Heq & Hlt & Hge).
  change (scale 3 (inject_Z (Z.of_N bytes)) 0) with r in *.
  rewrite Nat.sub_0_r in Heq.
  split_and!.
  - apply lookup_lt_is_Some. cbn [length units]. lia.
  - exact Heq.
  - intros Hidx. apply Hlt; lia.
  - exact Hge.
  - unfold formatBytes. fold r. by destruct r.
Qed.

Lemma formatBytes_value_and_unit_witness :
  ((scale (length units - 1) (inject_Z (Z.of_N 1536)) 0).1 < 1024)%Q /\
  (1 <= (scale (length units - 1) (inject_Z (Z.of_N 1536)) 0).1)%Q.
Proof.
  destruct (formatBytes_value_and_unit 1536) as (_ & _ & Hlt & Hge & _).
  split; [apply Hlt | apply Hge]; vm_compute; lia.
Defined.

(** ** Download names *)

Lemma append_assoc (a b c : string) : (a +:+ b) +:+ c = a +:+ (b +:+ c).
Proof.
  induction a as [|x a IH]; [done|].
  change (String x ((a +:+ b) +:+ c) = String x (a +:+ (b +:+ c))).
  by rewrite IH.
Qed.

Lemma padStart_two_digits (n : N) :
  (n < 100)%N -> Js.padStart 2 "0" (pretty n) = twoDigits n.
Proof.
  intros Hn.
  assert (Hall : forallb
                   (fun k => String.eqb (Js.padStart 2 "0" (pretty k))
                                        (twoDigits k))
                   (N.of_nat <$> seq 0 100) = true)
    by (vm_compute; reflexivity).
  rewrite forallb_forall in Hall.
  apply String.eqb_eq, Hall. apply list_elem_of_In.
  apply list_elem_of_fmap. exists (N.to_nat n). split; [lia|].
  apply elem_of_seq. lia.
Qed.

Lemma length_twoDigits (n : N) :
  (n < 100)%N -> String.length (twoDigits n) = 2.
Proof.
  intros Hn.
  assert (Hall : forallb (fun k => String.length (twoDigits k) =? 2)
                         (N.of_nat <$> seq 0 100) = true)
    by (vm_compute; reflexivity).
  rewrite forallb_forall in Hall.
  apply Nat.eqb_eq, Hall. apply list_elem_of_In.
  apply list_elem_of_fmap. exists (N.to_nat n). split; [lia|].
  apply elem_of_seq. lia.
Qed.

(** X22.  For every calendar date (month index 0 to 11, day 1 to 31) the
    download names are "merged-" and "images-to-pdf-", followed by the
    year, the month counted from 1 and the day, month and day with
    exactly two digits each (a leading zero below 10), and ".pdf". *)
Theorem downloadName_is_date_stamped (d : Date) :
  (getMonth d <= 11)%N -> (1 <= getDate d <= 31)%N ->
  let mm := twoDigits (getMonth d + 1) in
  let dd := twoDigits (getDate d) in
  String.length mm = 2 /\ String.length dd = 2 /\
  PdfMerge.downloadName d =
    "merged-" +:+ pretty (getFullYear d) +:+ mm +:+ dd +:+ ".pdf" /\
  JpgToPdf.downloadName d =
    "images-to-pdf-" +:+ pretty (getFullYear d) +:+ mm +:+ dd +:+ ".pdf".
Proof.
  intros Hm Hd mm dd.
  assert (Hstamp : dateStamp d = pretty (getFullYear d) +:+ mm +:+ dd).
  { unfold dateStamp. by rewrite !padStart_two_digits by lia. }
  split_and!.
  - apply length_twoDigits. lia.
  - apply length_twoDigits. lia.
  - unfold PdfMerge.downloadName. rewrite Hstamp.
    by rewrite !append_assoc.
  - unfold JpgToPdf.downloadName. rewrite Hstamp.
    by rewrite !append_assoc.
Qed.

Lemma downloadName_is_date_stamped_witness :
  PdfMerge.downloadName
    {| getFullYear := 2026; getMonth := 2; getDate := 7 |} =
  "merged-20260307.pdf".
Proof.
  destruct (downloadName_is_date_stamped
              {| getFullYear := 2026; getMonth := 2; getDate := 7 |})
    as (_ & _ & Hname & _).
  - vm_compute. discriminate.
  - split; vm_compute; discriminate.
  - rewrite Hname. vm_compute. reflexivity.
Defined.
